(** * FSD-aware traversal of an in-memory file tree

    A shallow embedding of [src/fsd-aware-traverse.ts] of the
    [@feature-sliced/filesystem] package, with the parts of JavaScript and of
    [node:path] (POSIX flavour) the code relies on, and the properties of the
    classifier proved over it. *)

From Stdlib Require Import String Ascii List Bool Arith Lia.
Import ListNotations.
Open Scope string_scope.
Open Scope list_scope.

(** ** JavaScript strings and arrays *)

Module JsString.

(** [s.split(sep)] for a one-character separator: never empty, the empty
    string splits into one empty token. *)
Fixpoint split (sep : ascii) (s : string) : list string :=
  match s with
  | EmptyString => [EmptyString]
  | String c rest =>
      if Ascii.eqb c sep then EmptyString :: split sep rest
      else match split sep rest with
           | [] => [String c EmptyString]
           | tok :: toks => String c tok :: toks
           end
  end.

(** [parts.join(sep)]. *)
Fixpoint joinWith (sep : string) (parts : list string) : string :=
  match parts with
  | [] => ""
  | [p] => p
  | p :: rest => (p ++ sep ++ joinWith sep rest)%string
  end.

(** [arr.at(0)]: [None] stands for [undefined]. *)
Definition at0 {A : Type} (arr : list A) : option A := hd_error arr.

(** [s.lastIndexOf(c)]: [None] stands for [-1]. *)
Fixpoint lastIndexOfFrom (c : ascii) (s : string) (i : nat) : option nat :=
  match s with
  | EmptyString => None
  | String a rest =>
      match lastIndexOfFrom c rest (S i) with
      | Some j => Some j
      | None => if Ascii.eqb a c then Some i else None
      end
  end.

Definition lastIndexOf (s : string) (c : ascii) : option nat :=
  lastIndexOfFrom c s 0.

(** [s.slice(0, n)] and [s.slice(n)] for [0 <= n <= s.length]. *)
Definition sliceTo (n : nat) (s : string) : string := substring 0 n s.
Definition sliceFrom (n : nat) (s : string) : string :=
  substring n (String.length s - n) s.

(** [arr.includes(x)] on an array of strings. *)
Definition includes (arr : list string) (x : string) : bool :=
  existsb (String.eqb x) arr.

Definition isEmpty (s : string) : bool := String.eqb s "".

(** The text before the first occurrence of a character, the whole string
    when there is none. *)
Fixpoint beforeFirst (c : ascii) (s : string) : string :=
  match s with
  | EmptyString => EmptyString
  | String a rest => if Ascii.eqb a c then EmptyString else String a (beforeFirst c rest)
  end.

Fixpoint hasChar (c : ascii) (s : string) : bool :=
  match s with
  | EmptyString => false
  | String a rest => Ascii.eqb a c || hasChar c rest
  end.

Definition startsWith (c : ascii) (s : string) : bool :=
  match s with
  | String a _ => Ascii.eqb a c
  | EmptyString => false
  end.

Fixpoint endsWith (c : ascii) (s : string) : bool :=
  match s with
  | EmptyString => false
  | String a EmptyString => Ascii.eqb a c
  | String _ rest => endsWith c rest
  end.

End JsString.

(** ** [node:path], POSIX flavour

    The functions are modelled at the level of path segments, following the
    documented behaviour of [path.basename], [path.parse], [path.normalize]
    and [path.join]. *)

Module Path.
Import JsString.

Definition sep : ascii := "/"%char.
Definition dot : ascii := "."%char.

Definition isAbsolute (path : string) : bool := startsWith sep path.

Fixpoint dropWhile {A : Type} (p : A -> bool) (l : list A) : list A :=
  match l with
  | [] => []
  | x :: rest => if p x then dropWhile p rest else l
  end.

(** The segments of a path once its trailing separators are ignored, last
    segment first. *)
Definition trimmedRev (path : string) : list string :=
  dropWhile isEmpty (rev (split sep path)).

(** [path.basename(path)]: the last portion of the path, trailing
    separators ignored; empty when the path has no portion at all. *)
Definition basename (path : string) : string :=
  match trimmedRev path with
  | [] => ""
  | b :: _ => b
  end.

Record ParsedPath : Type := mkParsed
  { root : string; dir : string; base : string; ext : string; name : string }.

(** Where the extension of a base name starts: at its last dot, unless
    there is none, the only candidate is the leading dot, or the base is
    [..]. *)
Definition extStart (b : string) : option nat :=
  match lastIndexOf b dot with
  | None => None
  | Some i => if Nat.eqb i 0 || String.eqb b ".." then None else Some i
  end.

Definition nameOf (b : string) : string :=
  match extStart b with
  | None => b
  | Some i => sliceTo i b
  end.

Definition extOf (b : string) : string :=
  match extStart b with
  | None => ""
  | Some i => sliceFrom i b
  end.

(** The text before the separator that precedes the base name; [/] when
    the base name sits directly under the root. *)
Definition dirOf (before : list string) : string :=
  match before with
  | [EmptyString] => "/"
  | _ => joinWith "/" before
  end.

(** The base name sits directly under the root. *)
Definition underRoot (before : list string) : bool :=
  match before with
  | [EmptyString] => true
  | _ => false
  end.

(** [path.parse(path)].  The implementation recognizes the base [..] by
    the position of its dots counted from the start of the path; directly
    under the root, as in [/..], the test misses and the last dot starts an
    extension: the name is [.] and the extension is [.]. *)
Definition parse (path : string) : ParsedPath :=
  let r := if isAbsolute path then "/" else "" in
  match trimmedRev path with
  | [] => mkParsed r r "" "" ""
  | b :: beforeRev =>
      if underRoot (rev beforeRev) && String.eqb b ".." then
        mkParsed r (dirOf (rev beforeRev)) b "." "."
      else mkParsed r (dirOf (rev beforeRev)) b (extOf b) (nameOf b)
  end.

(** One step of [normalizeString]: a segment is dropped ([""], [.]), pops
    the previous one ([..]) or is kept; the stack holds the kept segments,
    last one first. *)
Definition normalizeStep (allowAboveRoot : bool) (stack : list string)
    (seg : string) : list string :=
  if isEmpty seg || String.eqb seg "." then stack
  else if String.eqb seg ".." then
    match stack with
    | top :: below =>
        if String.eqb top ".." then
          if allowAboveRoot then ".." :: stack else stack
        else below
    | [] => if allowAboveRoot then [".."] else []
    end
  else seg :: stack.

Definition normalizeString (path : string) (allowAboveRoot : bool) : string :=
  joinWith "/"
    (rev (fold_left (normalizeStep allowAboveRoot) (split sep path) [])).

(** [path.normalize(path)]. *)
Definition normalize (path : string) : string :=
  if isEmpty path then "."
  else
    let abs := isAbsolute path in
    let trailingSeparator := endsWith sep path in
    let res := normalizeString path (negb abs) in
    if isEmpty res then
      if abs then "/" else if trailingSeparator then "./" else "."
    else
      let res' := if trailingSeparator then (res ++ "/")%string else res in
      if abs then ("/" ++ res')%string else res'.

(** [path.join(...paths)]: empty arguments are skipped, the rest are
    joined with [/] and normalized. *)
Definition join (paths : list string) : string :=
  match filter (fun p => negb (isEmpty p)) paths with
  | [] => "."
  | parts => normalize (joinWith "/" parts)
  end.

End Path.

(** ** Plain JavaScript objects used as maps

    An object is the list of its own enumerable string-keyed properties in
    creation order: writing an existing key replaces the value where the key
    stands, writing a new key appends it.  (JavaScript enumerates keys that
    look like array indices first; that only permutes an enumeration and is
    not modelled, the statements below are about the content of objects and
    about objects keyed by layer names.) *)

Module JsObject.

Definition obj (V : Type) : Type := list (string * V).

(** [CreateDataProperty(o, k, v)]. *)
Fixpoint set {V : Type} (k : string) (v : V) (o : obj V) : obj V :=
  match o with
  | [] => [(k, v)]
  | (k', v') :: rest =>
      if String.eqb k' k then (k', v) :: rest else (k', v') :: set k v rest
  end.

(** [o[k]] restricted to own properties: [None] stands for [undefined]. *)
Fixpoint get {V : Type} (k : string) (o : obj V) : option V :=
  match o with
  | [] => None
  | (k', v') :: rest => if String.eqb k' k then Some v' else get k rest
  end.

(** [o[k] = v] on an object created by [{}]: the key [__proto__] reaches
    the accessor of [Object.prototype] and replaces the prototype instead
    of creating an own property. *)
Definition assign {V : Type} (k : string) (v : V) (o : obj V) : obj V :=
  if String.eqb k "__proto__" then o else set k v o.

Definition setEntry {V : Type} (o : obj V) (kv : string * V) : obj V :=
  set (fst kv) (snd kv) o.

(** [Object.fromEntries(es)]. *)
Definition fromEntries {V : Type} (es : list (string * V)) : obj V :=
  fold_left setEntry es [].

(** [{ ...a, ...b }]. *)
Definition spread {V : Type} (a b : obj V) : obj V := fold_left setEntry b a.

Definition entries {V : Type} (o : obj V) : list (string * V) := o.
Definition values {V : Type} (o : obj V) : list V := map snd o.
Definition keys {V : Type} (o : obj V) : list string := map fst o.

End JsObject.

(** ** The tree model *)

(** Modelled from the spec: the types [File] and [Folder] are imported from
    [definitions.js], which is not part of the sources at hand; section 3 of
    the specification gives a node as a tagged union of a file with a path
    and of a folder with a path and an ordered sequence of child nodes. *)
Record File : Type := mkFile { file_path : string }.

Inductive FileSystemNode : Type :=
| NFile (f : File)
| NFolder (d : Folder)
with Folder : Type :=
| mkFolder (path : string) (children : list FileSystemNode).

Definition folder_path (d : Folder) : string :=
  match d with mkFolder p _ => p end.

Definition children (d : Folder) : list FileSystemNode :=
  match d with mkFolder _ cs => cs end.

(** [node.path], present on both kinds of node. *)
Definition node_path (n : FileSystemNode) : string :=
  match n with
  | NFile f => file_path f
  | NFolder d => folder_path d
  end.

(** [node.type === "folder"] and [node.type === "file"]. *)
Definition isFolderNode (n : FileSystemNode) : bool :=
  match n with NFolder _ => true | NFile _ => false end.

Definition isFileNode (n : FileSystemNode) : bool :=
  match n with NFile _ => true | NFolder _ => false end.

(** The folders among some nodes: how a value typed [Folder] is read back
    from an array of nodes. *)
Definition foldersOf (ns : list FileSystemNode) : list Folder :=
  flat_map (fun n => match n with NFolder d => [d] | NFile _ => [] end) ns.

(** Modelled from the spec: the constants [layerSequence], [unslicedLayers]
    and [conventionalSegmentNames] are imported from [definitions.js], which
    is not part of the sources at hand.  The values are the ones the
    specification lists (six layers, [shared] and [app] unsliced, five
    conventional segments); the earlier revision of the traversal file
    spells the same values out inline. *)
Definition layerSequence : list string :=
  ["shared"; "entities"; "features"; "widgets"; "pages"; "app"].

Definition unslicedLayers : list string := ["shared"; "app"].

Definition conventionalSegmentNames : list string :=
  ["ui"; "api"; "lib"; "model"; "config"].

(** ** The classifier, current revision *)

Import JsString JsObject.

(** [getLayers]: the children that are folders named after a layer, keyed
    by that name. *)
Definition getLayers (fsdRoot : Folder) : obj FileSystemNode :=
  fromEntries
    (map (fun child => (Path.basename (node_path child), child))
       (filter
          (fun child =>
             isFolderNode child
             && includes layerSequence (Path.basename (node_path child)))
          (children fsdRoot))).

(** [isSlice]: some child is named after a segment. *)
Definition isSlice (folder : Folder) (additionalSegmentNames : list string) : bool :=
  existsb
    (fun child =>
       includes (conventionalSegmentNames ++ additionalSegmentNames)
         (Path.name (Path.parse (node_path child))))
    (children folder).

(** The inner function [traverse] of [getSlices]; the object [slices] it
    closes over and updates is threaded through. *)
Fixpoint traverse (additionalSegmentNames : list string) (folder : Folder)
    (pathPrefix : string) (slices : obj Folder) {struct folder} : obj Folder :=
  if isSlice folder additionalSegmentNames then
    assign (Path.join [pathPrefix; Path.basename (folder_path folder)]) folder slices
  else
    fold_left
      (fun acc child =>
         match child with
         | NFolder d =>
             traverse additionalSegmentNames d
               (Path.join [pathPrefix; Path.basename (folder_path folder)]) acc
         | NFile _ => acc
         end)
      (children folder) slices.

(** [getSlices]: every folder child of the layer is traversed with the
    default, empty prefix. *)
Definition getSlices (slicedLayer : Folder) (additionalSegmentNames : list string)
    : obj Folder :=
  fold_left
    (fun slices child =>
       match child with
       | NFolder d => traverse additionalSegmentNames d "" slices
       | NFile _ => slices
       end)
    (children slicedLayer) [].

(** [isIndex]. *)
Definition isIndex (fileOrFolder : FileSystemNode) : bool :=
  match fileOrFolder with
  | NFile f =>
      let separator := Path.dot in
      let parsedFileName := Path.name (Path.parse (file_path f)) in
      match at0 (split separator parsedFileName) with
      | Some tok => String.eqb tok "index"
      | None => false
      end
  | NFolder _ => false
  end.

(** [getSegments]. *)
Definition getSegments (sliceOrUnslicedLayer : Folder) : obj FileSystemNode :=
  fromEntries
    (map (fun child => (Path.name (Path.parse (node_path child)), child))
       (filter (fun child => negb (isIndex child)) (children sliceOrUnslicedLayer))).

(** [isSliced], on a folder ([inl]) or on a layer name ([inr]). *)
Definition isSliced (layerOrName : Folder + string) : bool :=
  negb
    (includes unslicedLayers
       (Path.basename
          (match layerOrName with
           | inr layerName => layerName
           | inl layer => folder_path layer
           end))).

(** A slice with its layer: [{ ...slice, layerName }]. *)
Record LayeredFolder : Type := mkLayered
  { lf_path : string; lf_children : list FileSystemNode; layerName : string }.

Definition withLayerName (slice : Folder) (name : string) : LayeredFolder :=
  mkLayered (folder_path slice) (children slice) name.

(** [getAllSlices]. *)
Definition getAllSlices (fsdRoot : Folder) (additionalSegmentNames : list string)
    : obj LayeredFolder :=
  fold_left
    (fun slices layer =>
       spread slices
         (fromEntries
            (map
               (fun entry =>
                  (fst entry,
                   withLayerName (snd entry) (Path.basename (folder_path layer))))
               (entries (getSlices layer additionalSegmentNames)))))
    (filter (fun layer => isSliced (inl layer))
       (foldersOf (values (getLayers fsdRoot))))
    [].

Record SegmentInfo : Type := mkSegmentInfo
  { segment : FileSystemNode;
    segmentName : string;
    sliceName : option string;
    si_layerName : string }.

(** [getAllSegments]; a layer is a folder by [getLayers], a file in its
    place would contribute nothing. *)
Definition getAllSegments (fsdRoot : Folder) : list SegmentInfo :=
  flat_map
    (fun entry =>
       match snd entry with
       | NFolder layer =>
           if isSliced (inl layer) then
             flat_map
               (fun sl =>
                  map
                    (fun sg => mkSegmentInfo (snd sg) (fst sg) (Some (fst sl)) (fst entry))
                    (entries (getSegments (snd sl))))
               (entries (getSlices layer []))
           else
             map
               (fun sg => mkSegmentInfo (snd sg) (fst sg) None (fst entry))
               (entries (getSegments layer))
       | NFile _ => []
       end)
    (entries (getLayers fsdRoot)).

(** [getIndexes]. *)
Definition getIndexes (fileOrFolder : FileSystemNode) : list FileSystemNode :=
  match fileOrFolder with
  | NFile _ => [fileOrFolder]
  | NFolder d => filter isIndex (children d)
  end.

(** [isCrossImportPublicApi]. *)
Definition isCrossImportPublicApi (file : File) (inSlice forSlice layerPath : string)
    : bool :=
  let parsed := Path.parse (file_path file) in
  String.eqb (Path.name parsed) forSlice
  && String.eqb (Path.dir parsed) (Path.join [layerPath; inSlice; "@x"]).

(** ** The classifier, earlier revision *)

Module Earlier.

(** [withoutExtension]: cut one extension away. *)
Definition withoutExtension (filename : string) : string :=
  match lastIndexOf filename Path.dot with
  | None => filename
  | Some lastDotIndex => sliceTo lastDotIndex filename
  end.

Definition isSlice (folder : Folder) (additionalSegmentNames : list string) : bool :=
  existsb
    (fun child =>
       includes (conventionalSegmentNames ++ additionalSegmentNames)
         (withoutExtension (Path.basename (node_path child))))
    (children folder).

Fixpoint traverse (additionalSegmentNames : list string) (folder : Folder)
    (pathPrefix : string) (slices : obj Folder) {struct folder} : obj Folder :=
  if isSlice folder additionalSegmentNames then
    assign (Path.join [pathPrefix; Path.basename (folder_path folder)]) folder slices
  else
    fold_left
      (fun acc child =>
         match child with
         | NFolder d =>
             traverse additionalSegmentNames d
               (Path.join [pathPrefix; Path.basename (folder_path folder)]) acc
         | NFile _ => acc
         end)
      (children folder) slices.

Definition getSlices (slicedLayer : Folder) (additionalSegmentNames : list string)
    : obj Folder :=
  fold_left
    (fun slices child =>
       match child with
       | NFolder d => traverse additionalSegmentNames d "" slices
       | NFile _ => slices
       end)
    (children slicedLayer) [].

End Earlier.


(** ** The writes of [getSlices], with the place of each recorded folder

    A place is the list of child indices leading from the layer to a folder.
    The trace lists, in the order [traverse] performs them, the assignments
    [slices[key] = folder] together with the place of [folder]. *)

Fixpoint folderAt (d : Folder) (pos : list nat) : option Folder :=
  match pos with
  | [] => Some d
  | i :: rest =>
      match nth_error (children d) i with
      | Some (NFolder c) => folderAt c rest
      | _ => None
      end
  end.

Abbreviation Write := (list nat * (string * Folder))%type.

Definition under (i : nat) (w : Write) : Write := (i :: fst w, snd w).

Fixpoint overFolders (visit : Folder -> list Write) (cs : list FileSystemNode)
    (i : nat) : list Write :=
  match cs with
  | [] => []
  | NFolder d :: rest => map (under i) (visit d) ++ overFolders visit rest (S i)
  | NFile _ :: rest => overFolders visit rest (S i)
  end.

Fixpoint traverseTrace (additionalSegmentNames : list string) (folder : Folder)
    (pathPrefix : string) {struct folder} : list Write :=
  if isSlice folder additionalSegmentNames then
    [([], (Path.join [pathPrefix; Path.basename (folder_path folder)], folder))]
  else
    overFolders
      (fun d =>
         traverseTrace additionalSegmentNames d
           (Path.join [pathPrefix; Path.basename (folder_path folder)]))
      (children folder) 0.

Definition sliceTrace (slicedLayer : Folder) (additionalSegmentNames : list string)
    : list Write :=
  overFolders (fun d => traverseTrace additionalSegmentNames d "")
    (children slicedLayer) 0.

(** Performing the assignments of a trace on an object. *)
Definition replay (tr : list Write) (slices : obj Folder) : obj Folder :=
  fold_left (fun o w => assign (fst (snd w)) (snd (snd w)) o) tr slices.

(** One place lies on the branch below another. *)
Definition isPrefixOf (p q : list nat) : Prop := exists r, q = p ++ r.

(** A trace in which no place occurs twice and no place lies below
    another. *)
Definition branchFree (tr : list Write) : Prop :=
  NoDup (map fst tr)
  /\ forall w1 w2, In w1 tr -> In w2 tr -> isPrefixOf (fst w1) (fst w2) -> w1 = w2.

(** The key [traverse] gives a folder found two levels below the layer. *)
Definition nestedKey (parent child : Folder) : string :=
  Path.join
    [Path.join [""; Path.basename (folder_path parent)];
     Path.basename (folder_path child)].

(** A base name that [path.join] keeps as it is. *)
Definition ordinaryName (b : string) : bool :=
  negb (isEmpty b || String.eqb b "." || String.eqb b "..").

(** The last element of an array that satisfies a predicate. *)
Definition findLast {A : Type} (p : A -> bool) (l : list A) : option A :=
  find p (rev l).

(** The entry a slice name has after the layers were merged one after the
    other: the one of the last layer that has a slice of that name. *)
Definition lastSliceNamed (additionalSegmentNames : list string) (k : string)
    (layers : list Folder) : option LayeredFolder :=
  fold_left
    (fun found layer =>
       match get k (getSlices layer additionalSegmentNames) with
       | Some slice => Some (withLayerName slice (Path.basename (folder_path layer)))
       | None => found
       end)
    layers None.

(** The sliced layers of a root in the order [getAllSlices] goes through
    them. *)
Definition slicedLayersOf (fsdRoot : Folder) : list Folder :=
  filter (fun layer => isSliced (inl layer)) (foldersOf (values (getLayers fsdRoot))).

(** The depth of a tree of folders. *)
Fixpoint depth (d : Folder) : nat :=
  S (fold_right
       (fun child m =>
          Nat.max (match child with NFolder c => depth c | NFile _ => 0 end) m)
       0 (children d)).

(** ** The operations read dynamically

    The same code with what could go wrong at run time made explicit: the
    recursion of [traverse] consumes a call budget, and reading [children]
    off a node that is a file and iterating over it raises.  [None] stands
    for a run that does not return a value. *)

Module Run.

Fixpoint traverse (budget : nat) (additionalSegmentNames : list string)
    (folder : Folder) (pathPrefix : string) (slices : obj Folder)
    : option (obj Folder) :=
  match budget with
  | 0 => None
  | S budget' =>
      if isSlice folder additionalSegmentNames then
        Some (assign (Path.join [pathPrefix; Path.basename (folder_path folder)])
                folder slices)
      else
        fold_left
          (fun acc child =>
             match acc, child with
             | None, _ => None
             | Some s, NFolder d =>
                 traverse budget' additionalSegmentNames d
                   (Path.join [pathPrefix; Path.basename (folder_path folder)]) s
             | Some s, NFile _ => Some s
             end)
          (children folder) (Some slices)
  end.

Definition getSlices (budget : nat) (slicedLayer : FileSystemNode)
    (additionalSegmentNames : list string) : option (obj Folder) :=
  match slicedLayer with
  | NFile _ => None
  | NFolder layer =>
      fold_left
        (fun acc child =>
           match acc, child with
           | None, _ => None
           | Some s, NFolder d => traverse budget additionalSegmentNames d "" s
           | Some s, NFile _ => Some s
           end)
        (children layer) (Some [])
  end.

Definition getSegments (sliceOrUnslicedLayer : FileSystemNode)
    : option (obj FileSystemNode) :=
  match sliceOrUnslicedLayer with
  | NFile _ => None
  | NFolder d => Some (getSegments d)
  end.

Definition isSliced (layer : FileSystemNode) : bool :=
  negb (includes unslicedLayers (Path.basename (node_path layer))).

Definition getAllSlices (budget : nat) (fsdRoot : Folder)
    (additionalSegmentNames : list string) : option (obj LayeredFolder) :=
  fold_left
    (fun acc layer =>
       match acc with
       | None => None
       | Some slices =>
           match getSlices budget layer additionalSegmentNames with
           | None => None
           | Some found =>
               Some
                 (spread slices
                    (fromEntries
                       (map
                          (fun entry =>
                             (fst entry,
                              withLayerName (snd entry)
                                (Path.basename (node_path layer))))
                          (entries found))))
           end
       end)
    (filter isSliced (values (getLayers fsdRoot)))
    (Some []).

(** [arr.flatMap(f)] where [f] may raise. *)
Fixpoint flatMapM {A B : Type} (f : A -> option (list B)) (l : list A)
    : option (list B) :=
  match l with
  | [] => Some []
  | x :: rest =>
      match f x with
      | None => None
      | Some ys =>
          match flatMapM f rest with
          | None => None
          | Some zs => Some (ys ++ zs)
          end
      end
  end.

Definition getAllSegments (budget : nat) (fsdRoot : Folder)
    : option (list SegmentInfo) :=
  flatMapM
    (fun entry =>
       if isSliced (snd entry) then
         match getSlices budget (snd entry) [] with
         | None => None
         | Some found =>
             flatMapM
               (fun sl =>
                  match getSegments (NFolder (snd sl)) with
                  | None => None
                  | Some segs =>
                      Some
                        (map
                           (fun sg =>
                              mkSegmentInfo (snd sg) (fst sg) (Some (fst sl)) (fst entry))
                           (entries segs))
                  end)
               (entries found)
         end
       else
         match getSegments (snd entry) with
         | None => None
         | Some segs =>
             Some
               (map (fun sg => mkSegmentInfo (snd sg) (fst sg) None (fst entry))
                  (entries segs))
         end)
    (entries (getLayers fsdRoot)).

End Run.

(** ** The import resolver *)

Module Resolver.

Record CompilerOptions : Type := mkOptions
  { baseUrl : string; paths : list (string * list string) }.

Definition wildcard : ascii := "*"%char.

Definition isSuffix (suffix s : string) : bool :=
  String.eqb
    (substring (String.length s - String.length suffix) (String.length suffix) s)
    suffix.

(** Modelled from the spec: the module that defines [resolveImport] is not
    part of the sources at hand, only its test is; the definitions of this
    module follow section 4.2 of the specification step by step.  A key
    without wildcard matches exactly; a key with one wildcard matches by its
    fixed prefix and suffix and captures what lies between. *)
Definition matchPattern (key specifier : string) : option string :=
  match split wildcard key with
  | [exact] => if String.eqb exact specifier then Some "" else None
  | [pre; suf] =>
      if String.prefix pre specifier && isSuffix suf specifier
         && Nat.leb (String.length pre + String.length suf) (String.length specifier)
      then
        Some
          (substring (String.length pre)
             (String.length specifier - String.length pre - String.length suf)
             specifier)
      else None
  | _ => None
  end.

(** Modelled from the spec: the captured text replaces the wildcard of a
    replacement template (section 4.2, step 2). *)
Definition substitute (template captured : string) : string :=
  joinWith captured (split wildcard template).

(** Modelled from the spec: the keys of [paths] are scanned in declaration
    order and the first key that matches is used (section 4.2, step 2). *)
Fixpoint firstMatch (mapping : list (string * list string)) (specifier : string)
    : option (list string) :=
  match mapping with
  | [] => None
  | (key, templates) :: rest =>
      match matchPattern key specifier with
      | Some captured => Some (map (fun t => substitute t captured) templates)
      | None => firstMatch rest specifier
      end
  end.

Definition isRelative (specifier : string) : bool :=
  String.prefix "./" specifier || String.prefix "../" specifier.

(** Modelled from the spec: the ordered base candidates of section 4.2,
    steps 1 to 3; a relative specifier is resolved against the directory of
    the importer, any other one against [baseUrl], the resolution root. *)
Definition baseCandidates (specifier importerPath : string)
    (options : CompilerOptions) : list string :=
  if isRelative specifier then
    [Path.join [Path.dir (Path.parse importerPath); specifier]]
  else
    match firstMatch (paths options) specifier with
    | Some substituted => map (fun t => Path.join [baseUrl options; t]) substituted
    | None => [Path.join [baseUrl options; specifier]]
    end.

(** Modelled from the spec: the fallback sequence of section 4.2, step 4,
    for one base candidate: the literal path, the path with each extension,
    the path as a directory with [/index] and each extension; every
    candidate is a normalized physical path. *)
Definition probes (extensions : list string) (candidate : string) : list string :=
  map Path.normalize
    (candidate
     :: map (fun e => (candidate ++ e)%string) extensions
     ++ map (fun e => (candidate ++ "/index" ++ e)%string) extensions).

(** Modelled from the spec: the recognized source extensions in the order
    section 4.2 lists them. *)
Definition sourceExtensions : list string := [".ts"; ".tsx"; ".js"; ".jsx"].

(** Modelled from the spec: [resolveImport] for a given list of recognized
    extensions; the first probe that exists is returned, [None] stands for
    [undefined] (section 4.2, steps 4 and 5). *)
Definition resolveImportWith (extensions : list string)
    (specifier importerPath : string) (options : CompilerOptions)
    (fileExists : string -> bool) : option string :=
  find fileExists
    (flat_map (probes extensions) (baseCandidates specifier importerPath options)).

(** Modelled from the spec: [resolveImport] with the extensions above. *)
Definition resolveImport (specifier importerPath : string)
    (options : CompilerOptions) (fileExists : string -> bool) : option string :=
  resolveImportWith sourceExtensions specifier importerPath options fileExists.

End Resolver.

(** ** The claims in the wording of the specification *)

(** The token of a base name before its first dot. *)
Definition leadingToken (path : string) : string :=
  beforeFirst Path.dot (Path.basename path).

(** A direct child that is a file whose leading token is [index]. *)
Definition isIndexFile (child : FileSystemNode) : bool :=
  isFileNode child && String.eqb (leadingToken (node_path child)) "index".

(** A direct child that is a folder named after one of the six layers. *)
Definition isLayerFolder (child : FileSystemNode) : bool :=
  isFolderNode child && includes layerSequence (Path.basename (node_path child)).

(** [getLayers] holds exactly the layer folders among the children, each
    under its base name. *)
Definition holdsExactlyLayerFolders (fsdRoot : Folder) : Prop :=
  forall child,
    In child (children fsdRoot) /\ isLayerFolder child = true
    <-> In (Path.basename (node_path child), child) (entries (getLayers fsdRoot)).

(** A slice found two levels below the layer is reported under
    [parent/child]. *)
Definition reportsNestedSlices (slicedLayer : Folder) (extras : list string) : Prop :=
  isSliced (inl slicedLayer) = true ->
  forall i parent j child,
    nth_error (children slicedLayer) i = Some (NFolder parent) ->
    isSlice parent extras = false ->
    nth_error (children parent) j = Some (NFolder child) ->
    isSlice child extras = true ->
    get (Path.basename (folder_path parent) ++ "/" ++ Path.basename (folder_path child))%string
      (getSlices slicedLayer extras) = Some child.

(** The two revisions of [getSlices] agree. *)
Definition revisionsAgree (slicedLayer : Folder) (extras : list string) : Prop :=
  isSliced (inl slicedLayer) = true ->
  Earlier.getSlices slicedLayer extras = getSlices slicedLayer extras.

(** A name that is not empty, not [..] and not a name whose last dot is its
    first character (as [.] and [.storybook] are). *)
Definition plainName (x : string) : bool :=
  negb
    (isEmpty x || String.eqb x ".."
     || match lastIndexOf x Path.dot with
        | Some 0 => true
        | _ => false
        end).

(** A name that is not empty and does not start with a dot. *)
Definition namedWithoutLeadingDot (x : string) : bool :=
  negb (isEmpty x) && negb (startsWith Path.dot x).

(** ** Trees used in the examples *)

Definition file (p : string) : FileSystemNode := NFile (mkFile p).
Definition folder (p : string) (cs : list FileSystemNode) : FileSystemNode :=
  NFolder (mkFolder p cs).

(** A folder with two index files and a helper. *)
Definition uiSegment : Folder :=
  mkFolder "src/shared/ui"
    [file "src/shared/ui/index.ts";
     file "src/shared/ui/index.client.ts";
     file "src/shared/ui/helper.ts"].

(** A sliced layer with a slice two levels down and a plain slice. *)
Definition featuresLayer : Folder :=
  mkFolder "src/features"
    [folder "src/features/cart"
       [folder "src/features/cart/item" [file "src/features/cart/item/ui.ts"]];
     file "src/features/README.md";
     folder "src/features/auth"
       [folder "src/features/auth/ui" []; file "src/features/auth/index.ts"]].

(** A layer in which two sibling folders carry the same base name. *)
Definition twoCarts : Folder :=
  mkFolder "src/features"
    [folder "src/features/cart"
       [folder "src/features/cart/item" [file "src/features/cart/item/ui.ts"]];
     folder "src/features/cart"
       [folder "src/features/cart/item" [file "src/features/cart/item/api.ts"]]].

(** A root in which two sibling folders are named [pages]. *)
Definition twoPages : Folder :=
  mkFolder "src"
    [folder "src/pages" [folder "src/pages/home" [file "src/pages/home/ui.tsx"]];
     folder "src/pages" []].

(** A root with a sliced and an unsliced layer and a file named like a
    layer. *)
Definition smallRoot : Folder :=
  mkFolder "src"
    [NFolder featuresLayer;
     folder "src/shared" [NFolder uiSegment; file "src/shared/index.ts"];
     file "src/pages"].

(** A slice whose only child is a dot file. *)
Definition dotFileLayer : Folder :=
  mkFolder "src/features"
    [folder "src/features/auth" [folder "src/features/auth/.storybook" []]].

(** The compiler options and the probe of the resolver's test. *)
Definition testOptions : Resolver.CompilerOptions :=
  Resolver.mkOptions "." [("~/*", ["./src/*"])].

Definition testFileExists (path : string) : bool :=
  String.eqb path "src/shared/ui/index.ts".

(** ** The rest of the earlier revision

    The functions of the earlier revision beside [getSlices]; the constant
    [layerNames] and the unsliced layers are spelled out in that revision. *)

Module EarlierRest.

Definition layerNames : list string :=
  ["shared"; "entities"; "features"; "widgets"; "pages"; "app"].

(** [getLayers]. *)
Definition getLayers (fsdRoot : Folder) : obj FileSystemNode :=
  fromEntries
    (map (fun child => (Path.basename (node_path child), child))
       (filter
          (fun child =>
             isFolderNode child
             && includes layerNames (Path.basename (node_path child)))
          (children fsdRoot))).

(** [getSegments]: a child is kept when it is not a file or is not named
    [index] once its extension is cut. *)
Definition getSegments (sliceOrUnslicedLayer : Folder) : obj FileSystemNode :=
  fromEntries
    (map
       (fun child => (Earlier.withoutExtension (Path.basename (node_path child)), child))
       (filter
          (fun child =>
             negb (isFileNode child)
             || negb
                  (String.eqb
                     (Earlier.withoutExtension (Path.basename (node_path child)))
                     "index"))
          (children sliceOrUnslicedLayer))).

(** [isSliced]. *)
Definition isSliced (layerOrName : Folder + string) : bool :=
  negb
    (includes ["shared"; "app"]
       (Path.basename
          (match layerOrName with
           | inr layerName => layerName
           | inl layer => folder_path layer
           end))).

(** [getAllSlices]: the slices of the sliced layers merged, untagged. *)
Definition getAllSlices (fsdRoot : Folder) (additionalSegmentNames : list string)
    : obj Folder :=
  fold_left
    (fun slices layer =>
       spread slices (Earlier.getSlices layer additionalSegmentNames))
    (filter (fun layer => isSliced (inl layer))
       (foldersOf (values (getLayers fsdRoot))))
    [].

(** [getIndex]: a file is its own index; in a folder, the first child that
    is a file named [index] once its extension is cut; [None] stands for
    [undefined]. *)
Definition getIndex (fileOrFolder : FileSystemNode) : option File :=
  match fileOrFolder with
  | NFile f => Some f
  | NFolder d =>
      match
        find
          (fun child =>
             isFileNode child
             && String.eqb
                  (Earlier.withoutExtension (Path.basename (node_path child)))
                  "index")
          (children d)
      with
      | Some (NFile f) => Some f
      | _ => None
      end
  end.

End EarlierRest.

(** ** Notions used by the further properties *)

(** The base names of the folders met along a place, the layer itself left
    out. *)
Fixpoint namesAt (d : Folder) (pos : list nat) : list string :=
  match pos with
  | [] => []
  | i :: rest =>
      match nth_error (children d) i with
      | Some (NFolder c) => Path.basename (folder_path c) :: namesAt c rest
      | _ => []
      end
  end.

(** A place leads from a folder through folders that are not slices to a
    folder that is one. *)
Fixpoint firstSliceBelow (extras : list string) (d : Folder) (pos : list nat)
    : bool :=
  match pos with
  | [] => isSlice d extras
  | i :: rest =>
      negb (isSlice d extras)
      && match nth_error (children d) i with
         | Some (NFolder c) => firstSliceBelow extras c rest
         | _ => false
         end
  end.

(** The same from a layer, which is not itself tested. *)
Definition firstSliceIn (extras : list string) (slicedLayer : Folder)
    (pos : list nat) : bool :=
  match pos with
  | [] => false
  | i :: rest =>
      match nth_error (children slicedLayer) i with
      | Some (NFolder c) => firstSliceBelow extras c rest
      | _ => false
      end
  end.

(** No string occurs twice. *)
Fixpoint distinct (names : list string) : bool :=
  match names with
  | [] => true
  | n :: rest => negb (includes rest n) && distinct rest
  end.

(** In the whole tree below a folder, the folders among the children of a
    folder have ordinary base names that differ from one another. *)
Fixpoint wellNamed (d : Folder) : bool :=
  forallb ordinaryName
    (map (fun c => Path.basename (folder_path c)) (foldersOf (children d)))
  && distinct
       (map (fun c => Path.basename (folder_path c)) (foldersOf (children d)))
  && forallb
       (fun child => match child with NFolder c => wellNamed c | NFile _ => true end)
       (children d).

(** A path segment [path.join] keeps as it is: ordinary and without
    separator. *)
Definition plainSegment (n : string) : bool :=
  ordinaryName n && negb (hasChar Path.sep n).

(** The path of the cross-import file of a layer given by its segments. *)
Definition crossImportPath (layerSegments : list string)
    (inSlice forSlice ext : string) : string :=
  joinWith "/" (layerSegments ++ [inSlice; "@x"; (forSlice ++ "." ++ ext)%string]).

(** A slice of [getAllSlices] without its layer name. *)
Definition withoutLayerName (slice : LayeredFolder) : Folder :=
  mkFolder (lf_path slice) (lf_children slice).

(** The key [getSegments] gives a child. *)
Definition segmentKey (child : FileSystemNode) : string :=
  Path.name (Path.parse (node_path child)).

(** What [getAllSegments] reports: the layer is held by [getLayers] under
    the layer name; without slice name the layer is unsliced and holds the
    segment under the segment name; with a slice name the layer is sliced,
    [getSlices] with no additional names holds a slice under that name and
    the slice holds the segment under the segment name. *)
Definition reportedSegment (fsdRoot : Folder) (info : SegmentInfo) : Prop :=
  exists layer,
    get (si_layerName info) (getLayers fsdRoot) = Some (NFolder layer)
    /\ match sliceName info with
       | None =>
           isSliced (inl layer) = false
           /\ get (segmentName info) (getSegments layer) = Some (segment info)
       | Some s =>
           isSliced (inl layer) = true
           /\ exists slice,
                get s (getSlices layer []) = Some slice
                /\ get (segmentName info) (getSegments slice) = Some (segment info)
       end.

(** A layer whose child [__proto__] is a slice. *)
Definition protoLayer : Folder :=
  mkFolder "src/features"
    [folder "src/features/__proto__" [folder "src/features/__proto__/ui" []];
     folder "src/features/auth" [folder "src/features/auth/model" []]].

(** * Properties *)

(** ** Objects *)

Section ObjectFacts.

Context {V : Type}.

Lemma get_set (k k' : string) (v : V) (o : obj V) :
  get k (set k' v o) = if String.eqb k' k then Some v else get k o.
Proof.
  induction o as [|[k0 v0] o IH]; simpl.
  - reflexivity.
  - destruct (String.eqb k0 k') eqn:E0; simpl.
    + apply String.eqb_eq in E0. subst k0.
      destruct (String.eqb k' k); reflexivity.
    + destruct (String.eqb k0 k) eqn:E1.
      * apply String.eqb_eq in E1. subst k0.
        rewrite String.eqb_sym, E0. reflexivity.
      * exact IH.
Qed.

Lemma find_app {A : Type} (p : A -> bool) (l1 l2 : list A) :
  find p (l1 ++ l2) = match find p l1 with Some x => Some x | None => find p l2 end.
Proof.
  induction l1 as [|x l1 IH]; simpl; [reflexivity|].
  destruct (p x); [reflexivity | exact IH].
Qed.

Lemma findLast_cons {A : Type} (p : A -> bool) (x : A) (l : list A) :
  findLast p (x :: l) =
  match findLast p l with Some y => Some y | None => if p x then Some x else None end.
Proof.
  unfold findLast. simpl. rewrite find_app. simpl.
  destruct (find p (rev l)); [reflexivity|]. destruct (p x); reflexivity.
Qed.

(** After a run of writes a key holds the value of the last write to it. *)
Lemma get_fold_setEntry (k : string) (es : list (string * V)) (o : obj V) :
  get k (fold_left setEntry es o) =
  match findLast (fun e => String.eqb (fst e) k) es with
  | Some e => Some (snd e)
  | None => get k o
  end.
Proof.
  revert o. induction es as [|e es IH]; intro o; simpl.
  - reflexivity.
  - rewrite IH, findLast_cons.
    destruct (findLast (fun e0 => String.eqb (fst e0) k) es); [reflexivity|].
    unfold setEntry. rewrite get_set.
    destruct (String.eqb (fst e) k); reflexivity.
Qed.

Lemma keys_set_in (k k' : string) (v : V) (o : obj V) :
  In k (keys (set k' v o)) -> k = k' \/ In k (keys o).
Proof.
  induction o as [|[k0 v0] o IH]; simpl.
  - intros [H | []]. left. symmetry. exact H.
  - destruct (String.eqb k0 k') eqn:E; simpl.
    + intros [H | H]; right; [left | right]; assumption.
    + intros [H | H]; [right; left; assumption|].
      destruct (IH H) as [H' | H']; [left | right; right]; assumption.
Qed.

Lemma NoDup_keys_set (k : string) (v : V) (o : obj V) :
  NoDup (keys o) -> NoDup (keys (set k v o)).
Proof.
  induction o as [|[k0 v0] o IH]; simpl; intro H.
  - constructor; [intros [] | constructor].
  - inversion H as [|? ? Hn Hd]; subst.
    destruct (String.eqb k0 k) eqn:E; simpl.
    + constructor; assumption.
    + constructor; [|apply IH; assumption].
      intro Hin. apply keys_set_in in Hin. destruct Hin as [Hin | Hin].
      * subst k0. rewrite String.eqb_refl in E. discriminate.
      * contradiction.
Qed.

Lemma NoDup_keys_fold (es : list (string * V)) (o : obj V) :
  NoDup (keys o) -> NoDup (keys (fold_left setEntry es o)).
Proof.
  revert o. induction es as [|e es IH]; intros o H; simpl; [exact H|].
  apply IH. apply NoDup_keys_set. exact H.
Qed.

Lemma NoDup_keys_fromEntries (es : list (string * V)) : NoDup (keys (fromEntries es)).
Proof. apply NoDup_keys_fold. constructor. Qed.

Lemma get_None_not_key (k : string) (o : obj V) :
  ~ In k (keys o) -> get k o = None.
Proof.
  induction o as [|[k0 v0] o IH]; simpl; intro H; [reflexivity|].
  destruct (String.eqb k0 k) eqn:E.
  - apply String.eqb_eq in E. exfalso. apply H. left. exact E.
  - apply IH. intro Hin. apply H. right. exact Hin.
Qed.

Lemma find_key_None (k : string) (o : obj V) :
  ~ In k (keys o) -> find (fun e => String.eqb (fst e) k) o = None.
Proof.
  induction o as [|[k0 v0] o IH]; simpl; intro H; [reflexivity|].
  destruct (String.eqb k0 k) eqn:E.
  - apply String.eqb_eq in E. exfalso. apply H. left. exact E.
  - apply IH. intro Hin. apply H. right. exact Hin.
Qed.

(** With distinct keys the last entry of a key is its only entry. *)
Lemma findLast_get (k : string) (o : obj V) :
  NoDup (keys o) ->
  match findLast (fun e => String.eqb (fst e) k) o with
  | Some e => Some (snd e)
  | None => None
  end = get k o.
Proof.
  induction o as [|[k0 v0] o IH]; intro H; [reflexivity|].
  inversion H as [|? ? Hn Hd]; subst.
  rewrite findLast_cons. simpl.
  destruct (String.eqb k0 k) eqn:E.
  - apply String.eqb_eq in E. subst k0.
    unfold findLast. rewrite find_key_None; [reflexivity|].
    unfold keys. rewrite map_rev, <- in_rev. exact Hn.
  - rewrite <- (IH Hd).
    destruct (findLast (fun e => String.eqb (fst e) k) o); reflexivity.
Qed.

Lemma get_spread (k : string) (a b : obj V) :
  NoDup (keys b) ->
  get k (spread a b) = match get k b with Some v => Some v | None => get k a end.
Proof.
  intro H. unfold spread. rewrite get_fold_setEntry.
  rewrite <- (findLast_get k b H).
  destruct (findLast (fun e => String.eqb (fst e) k) b); reflexivity.
Qed.

Lemma in_set (k k' : string) (v v' : V) (o : obj V) :
  In (k, v) (set k' v' o) -> (k = k' /\ v = v') \/ In (k, v) o.
Proof.
  induction o as [|[k0 v0] o IH]; simpl.
  - intros [H | []]. left. inversion H. split; reflexivity.
  - destruct (String.eqb k0 k') eqn:E; simpl.
    + apply String.eqb_eq in E. subst k0.
      intros [H | H]; [left; inversion H; split; reflexivity | right; right; exact H].
    + intros [H | H]; [right; left; exact H|].
      destruct (IH H) as [H' | H']; [left | right; right]; exact H'.
Qed.

(** Every entry of an object built by writes is one of the writes. *)
Lemma in_fold_setEntry (k : string) (v : V) (es : list (string * V)) (o : obj V) :
  In (k, v) (fold_left setEntry es o) -> In (k, v) es \/ In (k, v) o.
Proof.
  revert o. induction es as [|e es IH]; intros o H; simpl in *.
  - right. exact H.
  - destruct (IH _ H) as [H' | H'].
    + left. right. exact H'.
    + unfold setEntry in H'. apply in_set in H'. destruct H' as [[H1 H2] | H'].
      * left. left. destruct e. simpl in *. subst. reflexivity.
      * right. exact H'.
Qed.

Lemma get_in (k : string) (v : V) (o : obj V) :
  get k o = Some v -> In (k, v) o.
Proof.
  induction o as [|[k0 v0] o IH]; simpl; [discriminate|].
  destruct (String.eqb k0 k) eqn:E.
  - apply String.eqb_eq in E. subst k0. intro H. inversion H. left. reflexivity.
  - intro H. right. apply IH. exact H.
Qed.

End ObjectFacts.

(** ** Strings and paths *)

Lemma find_ext {A : Type} (p q : A -> bool) (l : list A) :
  (forall x, p x = q x) -> find p l = find q l.
Proof.
  intro H. induction l as [|x l IH]; simpl; [reflexivity|].
  rewrite H, IH. reflexivity.
Qed.

Lemma find_all_false {A : Type} (p : A -> bool) (l : list A) :
  (forall x, p x = false) -> find p l = None.
Proof.
  intro H. induction l as [|x l IH]; simpl; [reflexivity|].
  rewrite H. exact IH.
Qed.

Lemma find_hit {A : Type} (p : A -> bool) (l : list A) (x : A) :
  In x l -> p x = true -> exists y, find p l = Some y /\ p y = true.
Proof.
  induction l as [|a l IH]; simpl; [intros []|].
  intros [E | Hin] Hp.
  - subst a. rewrite Hp. exists x. split; [reflexivity | exact Hp].
  - destruct (p a) eqn:Ea.
    + exists a. split; [reflexivity | exact Ea].
    + apply IH; assumption.
Qed.

Lemma split_hd (c : ascii) (s : string) :
  hd_error (split c s) = Some (beforeFirst c s).
Proof.
  induction s as [|a s IH]; simpl; [reflexivity|].
  destruct (Ascii.eqb a c); [reflexivity|].
  destruct (split c s) as [|tok toks]; simpl in *; [discriminate IH|].
  inversion IH. reflexivity.
Qed.

Lemma lastIndexOfFrom_spec (c : ascii) (s : string) (i j : nat) :
  lastIndexOfFrom c s i = Some j -> i <= j /\ String.get (j - i) s = Some c.
Proof.
  revert i. induction s as [|a s IH]; intro i; simpl; [discriminate|].
  destruct (lastIndexOfFrom c s (S i)) as [j'|] eqn:E.
  - intro H. inversion H. subst j'. apply IH in E. destruct E as [Hle Hget].
    split; [lia|]. replace (j - i) with (S (j - S i)) by lia. exact Hget.
  - destruct (Ascii.eqb a c) eqn:Ea; [|discriminate].
    intro H. inversion H. subst j. split; [lia|].
    rewrite Nat.sub_diag. simpl. apply Ascii.eqb_eq in Ea. subst a. reflexivity.
Qed.

Lemma lastIndexOf_spec (s : string) (c : ascii) (j : nat) :
  lastIndexOf s c = Some j -> String.get j s = Some c.
Proof.
  intro H. apply lastIndexOfFrom_spec in H. rewrite Nat.sub_0_r in H. apply H.
Qed.

Lemma beforeFirst_sliceTo (c : ascii) (s : string) (n : nat) :
  String.get n s = Some c -> beforeFirst c (sliceTo n s) = beforeFirst c s.
Proof.
  unfold sliceTo. revert n. induction s as [|a s IH]; intros n H.
  - destruct n; discriminate H.
  - destruct n as [|n]; simpl in *.
    + inversion H. subst a. rewrite Ascii.eqb_refl. reflexivity.
    + destruct (Ascii.eqb a c); [reflexivity|]. rewrite (IH n H). reflexivity.
Qed.

(** The name [path.parse] gives is computed from the base name, but for
    the base [..] directly under the root. *)
Lemma name_parse (path : string) :
  Path.name (Path.parse path) = Path.nameOf (Path.basename path)
  \/ (Path.basename path = ".." /\ Path.name (Path.parse path) = ".").
Proof.
  unfold Path.parse, Path.basename.
  destruct (Path.trimmedRev path) as [|b beforeRev]; [left; reflexivity|].
  destruct (Path.underRoot (rev beforeRev) && String.eqb b "..") eqn:E;
    [|left; reflexivity].
  right. apply andb_true_iff in E. destruct E as [_ E].
  apply String.eqb_eq in E. split; [exact E | reflexivity].
Qed.

(** Cutting the extension off leaves the leading token as it was. *)
Lemma beforeFirst_nameOf (b : string) :
  beforeFirst Path.dot (Path.nameOf b) = beforeFirst Path.dot b.
Proof.
  unfold Path.nameOf, Path.extStart.
  destruct (lastIndexOf b Path.dot) as [i|] eqn:E; [|reflexivity].
  destruct (Nat.eqb i 0 || String.eqb b ".."); [reflexivity|].
  apply beforeFirst_sliceTo. apply lastIndexOf_spec. exact E.
Qed.

Lemma isIndex_isIndexFile (child : FileSystemNode) :
  isIndex child = isIndexFile child.
Proof.
  destruct child as [f|d]; [|reflexivity].
  unfold isIndex, isIndexFile, leadingToken, at0. simpl.
  rewrite split_hd.
  destruct (name_parse (file_path f)) as [E | [Eb En]].
  - rewrite E, beforeFirst_nameOf. reflexivity.
  - rewrite En, Eb. reflexivity.
Qed.

(** ** Objects built from the children of a folder *)

Lemma get_fromEntries_keyed {A : Type} (key : A -> string) (q : A -> bool)
    (k : string) (cs : list A) :
  get k (fromEntries (map (fun c => (key c, c)) (filter q cs))) =
  findLast (fun c => q c && String.eqb (key c) k) cs.
Proof.
  unfold fromEntries. rewrite get_fold_setEntry. simpl.
  induction cs as [|c cs IH]; [reflexivity|].
  rewrite findLast_cons. simpl. destruct (q c) eqn:Eq; simpl.
  - rewrite findLast_cons. simpl.
    destruct (findLast (fun e => String.eqb (fst e) k) (map (fun c0 => (key c0, c0)) (filter q cs)));
      rewrite <- IH; [reflexivity|].
    destruct (String.eqb (key c) k); reflexivity.
  - rewrite IH.
    destruct (findLast (fun c0 => q c0 && String.eqb (key c0) k) cs); reflexivity.
Qed.

Lemma in_fromEntries_keyed {A : Type} (key : A -> string) (q : A -> bool)
    (k : string) (v : A) (cs : list A) :
  In (k, v) (fromEntries (map (fun c => (key c, c)) (filter q cs))) ->
  In v cs /\ q v = true /\ k = key v.
Proof.
  intro H. unfold fromEntries in H. apply in_fold_setEntry in H.
  destruct H as [H | []].
  apply in_map_iff in H. destruct H as [c [E Hin]].
  inversion E. subst. apply filter_In in Hin. destruct Hin as [Hin Hq].
  repeat split; assumption.
Qed.

(** The values of [getLayers] are layer folders among the children. *)
Lemma values_getLayers (fsdRoot : Folder) (v : FileSystemNode) :
  In v (values (getLayers fsdRoot)) ->
  In v (children fsdRoot) /\ isLayerFolder v = true.
Proof.
  unfold values. intro H. apply in_map_iff in H. destruct H as [[k v'] [E Hin]].
  simpl in E. subst v'. unfold getLayers in Hin.
  apply in_fromEntries_keyed in Hin. destruct Hin as [H1 [H2 _]].
  split; [exact H1 | exact H2].
Qed.

(** ** The claims *)

(** C3. [getIndexes] of a file is that file alone; [getIndexes] of a folder
    is the list, in child order, of its direct children that are files whose
    base name reads [index] before its first dot; no folder is ever
    returned.  A folder with [index.ts], [index.client.ts] and [helper.ts]
    yields the first two. *)
Theorem getIndexes_spec (fileOrFolder : FileSystemNode) :
  getIndexes fileOrFolder =
    match fileOrFolder with
    | NFile f => [NFile f]
    | NFolder d => filter isIndexFile (children d)
    end
  /\ Forall (fun n => isFileNode n = true) (getIndexes fileOrFolder)
  /\ getIndexes (NFolder uiSegment) =
       [file "src/shared/ui/index.ts"; file "src/shared/ui/index.client.ts"].
Proof.
  split; [|split].
  - destruct fileOrFolder as [f|d]; [reflexivity|].
    simpl. apply filter_ext. exact isIndex_isIndexFile.
  - destruct fileOrFolder as [f|d]; simpl.
    + constructor; [reflexivity | constructor].
    + apply Forall_forall. intros n Hn. apply filter_In in Hn.
      destruct Hn as [_ Hn]. destruct n; [reflexivity | discriminate Hn].
  - reflexivity.
Qed.

(** C4. For every key, [getSegments] holds the last direct child, in child
    order, that is not an index file and whose extension-stripped base name
    is the key, and nothing when there is no such child; no key occurs
    twice.  So the entries are the children that are not index files, a
    later child overwriting an earlier one of the same key. *)
Theorem getSegments_spec (sliceOrUnslicedLayer : Folder) (k : string) :
  get k (getSegments sliceOrUnslicedLayer) =
    findLast
      (fun child =>
         negb (isIndex child)
         && String.eqb (Path.name (Path.parse (node_path child))) k)
      (children sliceOrUnslicedLayer)
  /\ NoDup (keys (getSegments sliceOrUnslicedLayer)).
Proof.
  split.
  - unfold getSegments.
    apply (get_fromEntries_keyed
             (fun child => Path.name (Path.parse (node_path child)))
             (fun child => negb (isIndex child))).
  - apply NoDup_keys_fromEntries.
Qed.

(** C5, on the example of the documentation comment of
    [isCrossImportPublicApi]: the file [./src/entities/user/@x/product.ts]
    has the name [product] and the directory [./src/entities/user/@x], yet
    the function answers [false] for the slice [user], the target [product]
    and the layer [./src/entities], because [path.join] normalizes the
    directory it is compared with to [src/entities/user/@x]. *)
Theorem isCrossImportPublicApi_documented_example :
  let file := mkFile "./src/entities/user/@x/product.ts" in
  Path.name (Path.parse (file_path file)) = "product"
  /\ Path.dir (Path.parse (file_path file)) = ("./src/entities" ++ "/" ++ "user" ++ "/@x")%string
  /\ Path.join ["./src/entities"; "user"; "@x"] = "src/entities/user/@x"
  /\ isCrossImportPublicApi file "user" "product" "./src/entities" = false.
Proof. repeat split. Qed.

(** Without distinct base names the exactness is lost: on a root with two
    folders named [pages], the first one is a layer folder among the
    children and is not held. *)
Lemma getLayers_not_exact_on_twoPages : ~ holdsExactlyLayerFolders twoPages.
Proof.
  intro H.
  destruct (H (folder "src/pages" [folder "src/pages/home" [file "src/pages/home/ui.tsx"]]))
    as [H1 _].
  assert (Hin : In (Path.basename "src/pages",
                    folder "src/pages" [folder "src/pages/home" [file "src/pages/home/ui.tsx"]])
                   (entries (getLayers twoPages))).
  { apply H1. split; [left; reflexivity | reflexivity]. }
  vm_compute in Hin. destruct Hin as [E | []]. discriminate E.
Qed.

Lemma NoDup_map_inj_in {A B : Type} (key : A -> B) (l : list A) (x y : A) :
  NoDup (map key l) -> In x l -> In y l -> key x = key y -> x = y.
Proof.
  induction l as [|a l IH]; simpl; [intros _ []|].
  intros Hnd Hx Hy E. inversion Hnd as [|? ? Hn Hd]; subst.
  destruct Hx as [Hx | Hx]; destruct Hy as [Hy | Hy].
  - congruence.
  - subst a. exfalso. apply Hn. rewrite E. apply in_map. exact Hy.
  - subst a. exfalso. apply Hn. rewrite <- E. apply in_map. exact Hx.
  - exact (IH Hd Hx Hy E).
Qed.

(** With distinct keys among the kept elements, each of them is the last
    of its key. *)
Lemma findLast_unique {A : Type} (key : A -> string) (q : A -> bool)
    (l : list A) (x : A) :
  NoDup (map key (filter q l)) -> In x l -> q x = true ->
  findLast (fun c => q c && String.eqb (key c) (key x)) l = Some x.
Proof.
  intros Hnd Hin Hq. unfold findLast.
  destruct (find_hit (fun c => q c && String.eqb (key c) (key x)) (rev l) x)
    as [y [Hfind Hy]].
  - apply in_rev in Hin. exact Hin.
  - rewrite Hq, String.eqb_refl. reflexivity.
  - rewrite Hfind. f_equal. apply find_some in Hfind. destruct Hfind as [Hyl _].
    apply in_rev in Hyl. apply andb_true_iff in Hy. destruct Hy as [Hqy Hk].
    apply String.eqb_eq in Hk.
    apply (NoDup_map_inj_in key (filter q l)); try assumption;
      apply filter_In; split; assumption.
Qed.

(** What [getLayers] holds on any root: each of the six layer names is
    mapped to the last direct child, in child order, that is a folder with
    that base name, and nothing is held under any other key; every value is
    a folder; no key occurs twice.  When the layer folders among the
    children have distinct base names, [getLayers] holds exactly these
    folders, each under its base name. *)
Theorem getLayers_spec (fsdRoot : Folder) (k : string) :
  get k (getLayers fsdRoot) =
    (if includes layerSequence k then
       findLast
         (fun child =>
            isFolderNode child && String.eqb (Path.basename (node_path child)) k)
         (children fsdRoot)
     else None)
  /\ Forall (fun n => isFolderNode n = true) (values (getLayers fsdRoot))
  /\ NoDup (keys (getLayers fsdRoot))
  /\ (NoDup
        (map (fun child => Path.basename (node_path child))
           (filter isLayerFolder (children fsdRoot))) ->
      holdsExactlyLayerFolders fsdRoot).
Proof.
  split; [|split; [|split; [apply NoDup_keys_fromEntries|]]].
  - unfold getLayers.
    rewrite (get_fromEntries_keyed
               (fun child => Path.basename (node_path child))
               (fun child =>
                  isFolderNode child
                  && includes layerSequence (Path.basename (node_path child)))).
    unfold findLast. destruct (includes layerSequence k) eqn:Ek.
    + apply find_ext. intro c.
      destruct (String.eqb (Path.basename (node_path c)) k) eqn:E.
      * apply String.eqb_eq in E. rewrite E, Ek.
        rewrite !andb_true_r. reflexivity.
      * rewrite !andb_false_r. reflexivity.
    + apply find_all_false. intro c.
      destruct (String.eqb (Path.basename (node_path c)) k) eqn:E.
      * apply String.eqb_eq in E. rewrite E, Ek.
        rewrite andb_false_r. reflexivity.
      * apply andb_false_r.
  - apply Forall_forall. intros n Hn. apply values_getLayers in Hn.
    destruct Hn as [_ Hn]. unfold isLayerFolder in Hn.
    apply andb_true_iff in Hn. apply Hn.
  - intros Hnd child. unfold entries, getLayers.
    change (fun child0 =>
              isFolderNode child0
              && includes layerSequence (Path.basename (node_path child0)))
      with isLayerFolder.
    split.
    + intros [Hin Hl]. apply get_in.
      rewrite (get_fromEntries_keyed
                 (fun c => Path.basename (node_path c)) isLayerFolder).
      apply (findLast_unique (fun c => Path.basename (node_path c)) isLayerFolder);
        assumption.
    + intro Hin.
      apply (in_fromEntries_keyed
               (fun c => Path.basename (node_path c)) isLayerFolder) in Hin.
      destruct Hin as [H1 [H2 _]]. split; assumption.
Qed.

(** The same at a root whose layer folders have distinct names. *)
Lemma getLayers_spec_witness :
  NoDup
    (map (fun child => Path.basename (node_path child))
       (filter isLayerFolder (children smallRoot)))
  /\ holdsExactlyLayerFolders smallRoot.
Proof.
  assert (Hnd : NoDup
                  (map (fun child => Path.basename (node_path child))
                     (filter isLayerFolder (children smallRoot)))).
  { vm_compute. constructor.
    - intros [E | []]. discriminate E.
    - constructor; [intros [] | constructor]. }
  split; [exact Hnd|].
  apply (proj2 (proj2 (proj2 (getLayers_spec smallRoot "")))). exact Hnd.
Defined.

(** C9. With the options and the probe of the test, [resolveImport] maps
    [~/shared/ui] imported from [src/pages/home/ui/HomePage.tsx] to
    [src/shared/ui/index.ts]; so it does for every list of recognized
    extensions that has [.ts], in whatever order. *)
Theorem resolveImport_basic :
  Resolver.resolveImport "~/shared/ui" "src/pages/home/ui/HomePage.tsx"
    testOptions testFileExists = Some "src/shared/ui/index.ts"
  /\ forall extensions,
       In ".ts" extensions ->
       Resolver.resolveImportWith extensions "~/shared/ui"
         "src/pages/home/ui/HomePage.tsx" testOptions testFileExists
       = Some "src/shared/ui/index.ts".
Proof.
  split; [reflexivity|].
  intros extensions Hin. unfold Resolver.resolveImportWith.
  change (Resolver.baseCandidates "~/shared/ui" "src/pages/home/ui/HomePage.tsx" testOptions)
    with ["src/shared/ui"].
  destruct (find_hit testFileExists
              (flat_map (Resolver.probes extensions) ["src/shared/ui"])
              "src/shared/ui/index.ts") as [y [Hy Hp]].
  - simpl. rewrite app_nil_r. right.
    rewrite map_app. apply in_or_app. right.
    rewrite map_map. apply in_map_iff. exists ".ts". split; [reflexivity | exact Hin].
  - reflexivity.
  - rewrite Hy. unfold testFileExists in Hp. apply String.eqb_eq in Hp.
    rewrite Hp. reflexivity.
Qed.

(** The theorem at the extensions of the specification. *)
Lemma resolveImport_basic_witness :
  In ".ts" Resolver.sourceExtensions
  /\ Resolver.resolveImportWith Resolver.sourceExtensions "~/shared/ui"
       "src/pages/home/ui/HomePage.tsx" testOptions testFileExists
     = Some "src/shared/ui/index.ts".
Proof.
  split; [left; reflexivity|].
  apply (proj2 resolveImport_basic). left. reflexivity.
Defined.

(** ** Induction on trees of folders *)

Lemma Folder_children_ind (P : Folder -> Prop) :
  (forall d, (forall c, In (NFolder c) (children d) -> P c) -> P d) ->
  forall d, P d.
Proof.
  intro H. fix IH 1. intros [p cs]. apply H. simpl.
  induction cs as [|n cs IHcs]; intros c Hin.
  - destruct Hin.
  - destruct n as [f|d'].
    + destruct Hin as [E | Hin]; [discriminate E | exact (IHcs c Hin)].
    + destruct Hin as [E | Hin]; [|exact (IHcs c Hin)].
      inversion E. subst c. apply IH.
Qed.

Lemma traverse_eq (extras : list string) (folder : Folder) (pre : string)
    (slices : obj Folder) :
  traverse extras folder pre slices =
  if isSlice folder extras then
    assign (Path.join [pre; Path.basename (folder_path folder)]) folder slices
  else
    fold_left
      (fun acc child =>
         match child with
         | NFolder d =>
             traverse extras d (Path.join [pre; Path.basename (folder_path folder)]) acc
         | NFile _ => acc
         end)
      (children folder) slices.
Proof. destruct folder; reflexivity. Qed.

Lemma traverseTrace_eq (extras : list string) (folder : Folder) (pre : string) :
  traverseTrace extras folder pre =
  if isSlice folder extras then
    [([], (Path.join [pre; Path.basename (folder_path folder)], folder))]
  else
    overFolders
      (fun d => traverseTrace extras d (Path.join [pre; Path.basename (folder_path folder)]))
      (children folder) 0.
Proof. destruct folder; reflexivity. Qed.

(** Two ways of visiting the folders among some children agree when they
    agree on each of these folders. *)
Lemma fold_left_folders_ext {S : Type} (g h : Folder -> S -> S)
    (cs : list FileSystemNode) (s : S) :
  (forall c, In (NFolder c) cs -> forall s', g c s' = h c s') ->
  fold_left (fun acc child => match child with NFolder d => g d acc | NFile _ => acc end) cs s =
  fold_left (fun acc child => match child with NFolder d => h d acc | NFile _ => acc end) cs s.
Proof.
  revert s. induction cs as [|n cs IH]; intros s H; simpl; [reflexivity|].
  destruct n as [f|c].
  - apply IH. intros c Hin. apply H. right. exact Hin.
  - rewrite (H c (or_introl eq_refl)). apply IH.
    intros c' Hin. apply H. right. exact Hin.
Qed.

(** ** The two revisions of [isSlice] *)

Lemma substring_0_0 (s : string) : substring 0 0 s = "".
Proof. destruct s; reflexivity. Qed.

(** Where the two ways of cutting the extension differ, neither result is
    a plain name. *)
Lemma withoutExtension_nameOf (b : string) :
  Earlier.withoutExtension b = Path.nameOf b
  \/ (plainName (Earlier.withoutExtension b) = false
      /\ plainName (Path.nameOf b) = false).
Proof.
  unfold Earlier.withoutExtension, Path.nameOf, Path.extStart.
  destruct (lastIndexOf b Path.dot) as [i|] eqn:E; [|left; reflexivity].
  destruct (Nat.eqb i 0) eqn:E0; simpl.
  - right. apply Nat.eqb_eq in E0. subst i. split.
    + unfold sliceTo. rewrite substring_0_0. reflexivity.
    + unfold plainName. rewrite E. rewrite !orb_true_r. reflexivity.
  - destruct (String.eqb b "..") eqn:E1; [|left; reflexivity].
    right. apply String.eqb_eq in E1. subst b.
    vm_compute in E. inversion E. subst i. split; reflexivity.
Qed.

Lemma includes_not_plain (names : list string) (x : string) :
  forallb plainName names = true -> plainName x = false -> includes names x = false.
Proof.
  intros Hall Hx. unfold includes.
  destruct (existsb (String.eqb x) names) eqn:E; [|reflexivity].
  apply existsb_exists in E. destruct E as [y [Hin Hy]].
  apply String.eqb_eq in Hy. subst y.
  rewrite forallb_forall in Hall. rewrite (Hall x Hin) in Hx. discriminate Hx.
Qed.

Lemma existsb_pointwise {A : Type} (p q : A -> bool) (l : list A) :
  (forall x, p x = q x) -> existsb p l = existsb q l.
Proof.
  intro H. induction l as [|x l IH]; simpl; [reflexivity|].
  rewrite H, IH. reflexivity.
Qed.

Lemma isSlice_revisions (folder : Folder) (extras : list string) :
  forallb plainName extras = true ->
  Earlier.isSlice folder extras = isSlice folder extras.
Proof.
  intro Hex. unfold Earlier.isSlice, isSlice.
  apply existsb_pointwise. intro child.
  assert (Hall : forallb plainName (conventionalSegmentNames ++ extras) = true).
  { rewrite forallb_app, Hex. reflexivity. }
  destruct (name_parse (node_path child)) as [En | [Eb En]].
  - rewrite En.
    destruct (withoutExtension_nameOf (Path.basename (node_path child)))
      as [E | [H1 H2]].
    + rewrite E. reflexivity.
    + rewrite (includes_not_plain _ _ Hall H1), (includes_not_plain _ _ Hall H2).
      reflexivity.
  - rewrite En, Eb. reflexivity.
Qed.

Lemma Earlier_traverse_eq (extras : list string) (folder : Folder) (pre : string)
    (slices : obj Folder) :
  Earlier.traverse extras folder pre slices =
  if Earlier.isSlice folder extras then
    assign (Path.join [pre; Path.basename (folder_path folder)]) folder slices
  else
    fold_left
      (fun acc child =>
         match child with
         | NFolder d =>
             Earlier.traverse extras d
               (Path.join [pre; Path.basename (folder_path folder)]) acc
         | NFile _ => acc
         end)
      (children folder) slices.
Proof. destruct folder; reflexivity. Qed.

Lemma traverse_revisions (extras : list string) :
  forallb plainName extras = true ->
  forall folder pre slices,
    Earlier.traverse extras folder pre slices = traverse extras folder pre slices.
Proof.
  intros Hex folder. induction folder as [folder IH] using Folder_children_ind.
  intros pre slices. rewrite Earlier_traverse_eq, traverse_eq.
  rewrite (isSlice_revisions _ _ Hex).
  destruct (isSlice folder extras); [reflexivity|].
  apply (fold_left_folders_ext
           (fun d acc => Earlier.traverse extras d
                           (Path.join [pre; Path.basename (folder_path folder)]) acc)
           (fun d acc => traverse extras d
                           (Path.join [pre; Path.basename (folder_path folder)]) acc)).
  intros c Hin s'. apply IH. exact Hin.
Qed.

(** C10 as stated fails when an additional segment name is a dot name: the
    later revision sees the folder [.storybook] as the segment of that name,
    the earlier one strips it to the empty name. *)
Lemma revisions_differ_on_dot_names : ~ revisionsAgree dotFileLayer [".storybook"].
Proof. intro H. specialize (H eq_refl). vm_compute in H. discriminate H. Qed.

Lemma get_0_startsWith (c : ascii) (s : string) :
  String.get 0 s = Some c -> startsWith c s = true.
Proof.
  destruct s as [|a s]; simpl; [discriminate|].
  intro H. inversion H. apply Ascii.eqb_refl.
Qed.

Lemma namedWithoutLeadingDot_plain (x : string) :
  namedWithoutLeadingDot x = true -> plainName x = true.
Proof.
  unfold namedWithoutLeadingDot, plainName. intro H.
  apply andb_true_iff in H. destruct H as [He Hd].
  apply negb_true_iff in He. apply negb_true_iff in Hd.
  rewrite He. simpl.
  destruct (String.eqb x "..") eqn:E.
  { apply String.eqb_eq in E. subst x. discriminate Hd. }
  simpl. destruct (lastIndexOf x Path.dot) as [[|i]|] eqn:El; try reflexivity.
  apply lastIndexOf_spec in El. rewrite (get_0_startsWith _ _ El) in Hd.
  discriminate Hd.
Qed.

(** C10, amended. The two revisions of [getSlices] return the same object
    for every layer and every list of additional segment names of which
    none is empty, [..] or a name whose last dot is its first character; so
    they do for every list of names that are not empty and do not start
    with a dot, and for the default, empty list. *)
Theorem getSlices_revisions_agree (slicedLayer : Folder) (extras : list string) :
  (forallb plainName extras = true ->
   Earlier.getSlices slicedLayer extras = getSlices slicedLayer extras)
  /\ (forallb namedWithoutLeadingDot extras = true ->
      Earlier.getSlices slicedLayer extras = getSlices slicedLayer extras)
  /\ Earlier.getSlices slicedLayer [] = getSlices slicedLayer [].
Proof.
  assert (H : forall names,
            forallb plainName names = true ->
            Earlier.getSlices slicedLayer names = getSlices slicedLayer names).
  { intros names Hex. unfold Earlier.getSlices, getSlices.
    apply (fold_left_folders_ext
             (fun d acc => Earlier.traverse names d "" acc)
             (fun d acc => traverse names d "" acc)).
    intros c _ s'. apply traverse_revisions. exact Hex. }
  split; [exact (H extras)|]. split; [|exact (H [] eq_refl)].
  intro Hex. apply H. apply forallb_forall. intros x Hx.
  rewrite forallb_forall in Hex. exact (namedWithoutLeadingDot_plain x (Hex x Hx)).
Qed.

(** The theorem at a layer with one additional, plain segment name. *)
Lemma getSlices_revisions_agree_witness :
  forallb plainName ["widgets"] = true
  /\ forallb namedWithoutLeadingDot ["widgets"] = true
  /\ Earlier.getSlices featuresLayer ["widgets"] = getSlices featuresLayer ["widgets"].
Proof.
  split; [reflexivity|]. split; [reflexivity|].
  apply (proj1 (getSlices_revisions_agree featuresLayer ["widgets"])). reflexivity.
Defined.

(** ** The trace of [getSlices] *)

Lemma replay_app (a b : list Write) (s : obj Folder) :
  replay (a ++ b) s = replay b (replay a s).
Proof. apply fold_left_app. Qed.

Lemma replay_under (i : nat) (tr : list Write) (s : obj Folder) :
  replay (map (under i) tr) s = replay tr s.
Proof.
  revert s. induction tr as [|w tr IH]; intro s; [reflexivity|].
  simpl. apply IH.
Qed.

Lemma visit_children_replay (g : Folder -> obj Folder -> obj Folder)
    (visit : Folder -> list Write) (cs : list FileSystemNode) :
  (forall c, In (NFolder c) cs -> forall s, g c s = replay (visit c) s) ->
  forall i s,
    fold_left (fun acc child => match child with NFolder d => g d acc | NFile _ => acc end) cs s
    = replay (overFolders visit cs i) s.
Proof.
  induction cs as [|n cs IH]; intros H i s; [reflexivity|].
  simpl. destruct n as [f|c].
  - apply IH. intros c Hin. apply H. right. exact Hin.
  - rewrite replay_app, replay_under, <- (H c (or_introl eq_refl)).
    apply IH. intros c' Hin. apply H. right. exact Hin.
Qed.

Lemma traverse_replay (extras : list string) (folder : Folder) :
  forall pre s,
    traverse extras folder pre s = replay (traverseTrace extras folder pre) s.
Proof.
  induction folder as [folder IH] using Folder_children_ind.
  intros pre s. rewrite traverse_eq, traverseTrace_eq.
  destruct (isSlice folder extras); [reflexivity|].
  apply (visit_children_replay
           (fun d acc => traverse extras d
                           (Path.join [pre; Path.basename (folder_path folder)]) acc)).
  intros c Hin s'. apply IH. exact Hin.
Qed.

Lemma getSlices_replay (slicedLayer : Folder) (extras : list string) :
  getSlices slicedLayer extras = replay (sliceTrace slicedLayer extras) [].
Proof.
  unfold getSlices, sliceTrace.
  apply (visit_children_replay (fun d acc => traverse extras d "" acc)).
  intros c _ s. apply traverse_replay.
Qed.

Lemma in_overFolders (visit : Folder -> list Write) (cs : list FileSystemNode)
    (i0 : nat) (w : Write) :
  In w (overFolders visit cs i0) <->
  exists i c w', nth_error cs i = Some (NFolder c) /\ In w' (visit c)
                 /\ w = under (i0 + i) w'.
Proof.
  revert i0. induction cs as [|n cs IH]; intro i0; simpl.
  - split; [intros [] | intros [i [c [w' [H _]]]]; destruct i; discriminate H].
  - split.
    + intro H.
      assert (Hrest : In w (overFolders visit cs (S i0)) ->
                      exists i c w', nth_error (n :: cs) i = Some (NFolder c)
                                     /\ In w' (visit c) /\ w = under (i0 + i) w').
      { intro Hin. apply IH in Hin. destruct Hin as [i [c [w' [H1 [H2 H3]]]]].
        exists (S i), c, w'. repeat split; [exact H1 | exact H2|].
        rewrite H3. f_equal. lia. }
      destruct n as [f|d]; [exact (Hrest H)|].
      apply in_app_or in H. destruct H as [H | H]; [|exact (Hrest H)].
      apply in_map_iff in H. destruct H as [w' [E Hin]].
      exists 0, d, w'. repeat split; [exact Hin|].
      rewrite Nat.add_0_r. symmetry. exact E.
    + intros [i [c [w' [H1 [H2 H3]]]]].
      assert (Hrest : forall j, nth_error cs j = Some (NFolder c) -> i = S j ->
                                In w (overFolders visit cs (S i0))).
      { intros j Hj Ei. apply IH. exists j, c, w'.
        repeat split; [exact Hj | exact H2|]. rewrite H3. f_equal. lia. }
      destruct i as [|j]; simpl in H1.
      * inversion H1. subst n. apply in_or_app. left.
        apply in_map_iff. exists w'. split; [|exact H2].
        rewrite H3, Nat.add_0_r. reflexivity.
      * destruct n as [f|d]; [exact (Hrest j H1 eq_refl)|].
        apply in_or_app. right. exact (Hrest j H1 eq_refl).
Qed.

(** Every write of the trace records the folder found at its place, and
    that folder is a slice. *)
Lemma traverseTrace_sound (extras : list string) (folder : Folder) :
  forall pre pos k f,
    In (pos, (k, f)) (traverseTrace extras folder pre) ->
    folderAt folder pos = Some f /\ isSlice f extras = true.
Proof.
  induction folder as [folder IH] using Folder_children_ind.
  intros pre pos k f. rewrite traverseTrace_eq.
  destruct (isSlice folder extras) eqn:Es.
  - intros [E | []]. inversion E. subst. split; [reflexivity | exact Es].
  - intro H. apply in_overFolders in H.
    destruct H as [i [c [[pos' [k' f']] [H1 [H2 H3]]]]].
    unfold under in H3. simpl in H3. inversion H3. subst.
    simpl. rewrite H1.
    apply (IH c (nth_error_In _ _ H1) _ _ _ _ H2).
Qed.

Lemma sliceTrace_sound (slicedLayer : Folder) (extras : list string) :
  forall pos k f,
    In (pos, (k, f)) (sliceTrace slicedLayer extras) ->
    folderAt slicedLayer pos = Some f /\ isSlice f extras = true.
Proof.
  intros pos k f H. unfold sliceTrace in H. apply in_overFolders in H.
  destruct H as [i [c [[pos' [k' f']] [H1 [H2 H3]]]]].
  unfold under in H3. simpl in H3. inversion H3. subst.
  simpl. rewrite H1. apply (traverseTrace_sound _ _ _ _ _ _ H2).
Qed.

Lemma isPrefixOf_cons (i j : nat) (p q : list nat) :
  isPrefixOf (i :: p) (j :: q) -> i = j /\ isPrefixOf p q.
Proof.
  intros [r E]. simpl in E. inversion E. split; [reflexivity|].
  exists r. reflexivity.
Qed.

Lemma NoDup_map_cons (i : nat) (l : list (list nat)) :
  NoDup l -> NoDup (map (cons i) l).
Proof.
  induction 1 as [|x l Hx Hl IH]; simpl; constructor; [|exact IH].
  intro Hin. apply in_map_iff in Hin. destruct Hin as [y [E Hy]].
  inversion E. subst y. contradiction.
Qed.

Lemma overFolders_head (visit : Folder -> list Write) (cs : list FileSystemNode)
    (i0 : nat) (w : Write) :
  In w (overFolders visit cs i0) -> exists i p, fst w = i :: p /\ i0 <= i.
Proof.
  intro H. apply in_overFolders in H. destruct H as [i [c [w' [_ [_ E]]]]].
  exists (i0 + i), (fst w'). subst w. split; [reflexivity | lia].
Qed.

Lemma branchFree_overFolders (visit : Folder -> list Write)
    (cs : list FileSystemNode) :
  (forall c, In (NFolder c) cs -> branchFree (visit c)) ->
  forall i0, branchFree (overFolders visit cs i0).
Proof.
  intros H i0. split.
  - revert i0. induction cs as [|n cs IH]; intro i0; simpl; [constructor|].
    assert (Hcs : forall c, In (NFolder c) cs -> branchFree (visit c)).
    { intros c Hin. apply H. right. exact Hin. }
    destruct n as [f|d]; [exact (IH Hcs (S i0))|].
    rewrite map_app. apply NoDup_app.
    + rewrite map_map.
      rewrite (map_ext (fun w => fst (under i0 w)) (fun w => cons i0 (fst w)))
        by reflexivity.
      rewrite <- map_map. apply NoDup_map_cons.
      apply (H d (or_introl eq_refl)).
    + exact (IH Hcs (S i0)).
    + intros p Hp Hq. apply in_map_iff in Hp. destruct Hp as [w1 [E1 Hw1]].
      apply in_map_iff in Hw1. destruct Hw1 as [w1' [E1' _]].
      apply in_map_iff in Hq. destruct Hq as [w2 [E2 Hw2]].
      apply overFolders_head in Hw2. destruct Hw2 as [i [q [E Hle]]].
      subst w1 p. rewrite E in E2. inversion E2. lia.
  - intros w1 w2 H1 H2 Hpre.
    apply in_overFolders in H1. destruct H1 as [i1 [c1 [w1' [Hn1 [Hin1 E1]]]]].
    apply in_overFolders in H2. destruct H2 as [i2 [c2 [w2' [Hn2 [Hin2 E2]]]]].
    subst w1 w2. simpl in Hpre. apply isPrefixOf_cons in Hpre.
    destruct Hpre as [Ei Hpre].
    assert (i1 = i2) by lia. subst i2.
    rewrite Hn1 in Hn2. inversion Hn2. subst c2.
    f_equal. apply (H c1 (nth_error_In _ _ Hn1)); assumption.
Qed.

Lemma branchFree_traverseTrace (extras : list string) (folder : Folder) :
  forall pre, branchFree (traverseTrace extras folder pre).
Proof.
  induction folder as [folder IH] using Folder_children_ind.
  intro pre. rewrite traverseTrace_eq.
  destruct (isSlice folder extras).
  - split.
    + simpl. constructor; [intros [] | constructor].
    + intros w1 w2 [E1 | []] [E2 | []] _. congruence.
  - apply branchFree_overFolders. intros c Hin. apply IH. exact Hin.
Qed.

Lemma branchFree_sliceTrace (slicedLayer : Folder) (extras : list string) :
  branchFree (sliceTrace slicedLayer extras).
Proof.
  apply branchFree_overFolders. intros c _. apply branchFree_traverseTrace.
Qed.

(** What a key holds after the writes of a trace. *)
Lemma get_assign (k k' : string) (v : Folder) (o : obj Folder) :
  get k (assign k' v o) =
  if String.eqb k' "__proto__" then get k o
  else if String.eqb k' k then Some v else get k o.
Proof.
  unfold assign. destruct (String.eqb k' "__proto__"); [reflexivity|].
  apply get_set.
Qed.

Lemma get_replay (k : string) (tr : list Write) (s : obj Folder) :
  get k (replay tr s) =
  if String.eqb k "__proto__" then get k s
  else match findLast (fun w => String.eqb (fst (snd w)) k) tr with
       | Some w => Some (snd (snd w))
       | None => get k s
       end.
Proof.
  revert s. induction tr as [|w tr IH]; intro s.
  - simpl. destruct (String.eqb k "__proto__"); reflexivity.
  - change (replay (w :: tr) s)
      with (replay tr (assign (fst (snd w)) (snd (snd w)) s)).
    rewrite IH, findLast_cons, get_assign.
    destruct (String.eqb k "__proto__") eqn:Ek.
    + apply String.eqb_eq in Ek. subst k.
      destruct (String.eqb (fst (snd w)) "__proto__"); reflexivity.
    + destruct (findLast (fun w0 => String.eqb (fst (snd w0)) k) tr); [reflexivity|].
      destruct (String.eqb (fst (snd w)) k) eqn:Ew.
      * apply String.eqb_eq in Ew. rewrite Ew, Ek. reflexivity.
      * destruct (String.eqb (fst (snd w)) "__proto__"); reflexivity.
Qed.

Lemma in_replay (k : string) (v : Folder) (tr : list Write) (s : obj Folder) :
  get k (replay tr s) = Some v ->
  (exists pos, In (pos, (k, v)) tr) \/ get k s = Some v.
Proof.
  rewrite get_replay.
  destruct (String.eqb k "__proto__"); [intro H; right; exact H|].
  unfold findLast. intro H.
  match type of H with
  | match ?found with _ => _ end = _ => destruct found as [w|] eqn:E
  end; [|right; exact H].
  left. apply find_some in E. destruct E as [Hin Hk].
  apply String.eqb_eq in Hk. apply in_rev in Hin.
  destruct w as [pos [k' v']]. simpl in *. inversion H. subst.
  exists pos. exact Hin.
Qed.

(** C1. The result of [getSlices] is what the writes of the trace leave;
    every folder it holds satisfies [isSlice] with the same additional names
    and was written from some place of the layer; every folder written sits
    at its place and satisfies [isSlice]; and no two writes have places on
    one branch: a place that is a prefix of the place of another write is
    the place of that very write, so nothing is recorded below a recorded
    slice. *)
Theorem getSlices_records_slices_once (slicedLayer : Folder) (extras : list string) :
  getSlices slicedLayer extras = replay (sliceTrace slicedLayer extras) []
  /\ (forall k f,
        get k (getSlices slicedLayer extras) = Some f ->
        isSlice f extras = true
        /\ exists pos, In (pos, (k, f)) (sliceTrace slicedLayer extras))
  /\ (forall pos k f,
        In (pos, (k, f)) (sliceTrace slicedLayer extras) ->
        folderAt slicedLayer pos = Some f /\ isSlice f extras = true)
  /\ (forall m n w1 w2,
        nth_error (sliceTrace slicedLayer extras) m = Some w1 ->
        nth_error (sliceTrace slicedLayer extras) n = Some w2 ->
        isPrefixOf (fst w1) (fst w2) -> m = n).
Proof.
  split; [apply getSlices_replay|]. split; [|split].
  - intros k f H. rewrite getSlices_replay in H. apply in_replay in H.
    destruct H as [[pos H] | H]; [|discriminate H].
    split; [exact (proj2 (sliceTrace_sound _ _ _ _ _ H)) | exists pos; exact H].
  - apply sliceTrace_sound.
  - intros m n w1 w2 H1 H2 Hpre.
    destruct (branchFree_sliceTrace slicedLayer extras) as [Hnd Hbf].
    assert (E : w1 = w2).
    { apply Hbf; [exact (nth_error_In _ _ H1) | exact (nth_error_In _ _ H2) | exact Hpre]. }
    subst w2. rewrite NoDup_nth_error in Hnd. apply Hnd.
    + rewrite length_map. apply nth_error_Some.
      intro Hn. discriminate (eq_trans (eq_sym H1) Hn).
    + rewrite !nth_error_map.
      exact (f_equal (option_map fst) (eq_trans H1 (eq_sym H2))).
Qed.

(** The theorem at a layer with a nested slice. *)
Lemma getSlices_records_slices_once_witness :
  get "cart/item" (getSlices featuresLayer []) =
    Some (mkFolder "src/features/cart/item" [file "src/features/cart/item/ui.ts"])
  /\ isSlice (mkFolder "src/features/cart/item" [file "src/features/cart/item/ui.ts"]) []
     = true
  /\ exists pos,
       In (pos, ("cart/item",
                 mkFolder "src/features/cart/item" [file "src/features/cart/item/ui.ts"]))
          (sliceTrace featuresLayer []).
Proof.
  split; [reflexivity|].
  apply (proj1 (proj2 (getSlices_records_slices_once featuresLayer []))).
  reflexivity.
Defined.

(** ** [path.join] on ordinary names *)

Lemma split_no_sep (c : ascii) (s : string) :
  hasChar c s = false -> split c s = [s].
Proof.
  induction s as [|a s IH]; simpl; [reflexivity|].
  intro H. apply orb_false_iff in H. destruct H as [Ha Hs].
  rewrite Ha, (IH Hs). reflexivity.
Qed.

Lemma split_app_sep (c : ascii) (a b : string) :
  hasChar c a = false ->
  split c (a ++ String c b)%string = a :: split c b.
Proof.
  induction a as [|x a IH]; simpl.
  - intros _. rewrite Ascii.eqb_refl. reflexivity.
  - intro H. apply orb_false_iff in H. destruct H as [Hx Ha].
    rewrite Hx, (IH Ha). reflexivity.
Qed.

Lemma split_segments_no_sep (c : ascii) (s seg : string) :
  In seg (split c s) -> hasChar c seg = false.
Proof.
  revert seg. induction s as [|a s IH]; simpl; intro seg.
  - intros [E | []]. subst seg. reflexivity.
  - destruct (Ascii.eqb a c) eqn:Ea.
    + intros [E | Hin]; [subst seg; reflexivity | exact (IH seg Hin)].
    + destruct (split c s) as [|tok toks].
      * intros [E | []]. subst seg. simpl. rewrite Ea. reflexivity.
      * intros [E | Hin].
        -- subst seg. simpl. rewrite Ea. apply (IH tok). left. reflexivity.
        -- apply (IH seg). right. exact Hin.
Qed.

Lemma dropWhile_incl {A : Type} (p : A -> bool) (l : list A) (x : A) :
  In x (Path.dropWhile p l) -> In x l.
Proof.
  induction l as [|y l IH]; simpl; [intros []|].
  destruct (p y); [intro H; right; exact (IH H) | intro H; exact H].
Qed.

(** A base name holds no separator. *)
Lemma basename_no_sep (path : string) :
  hasChar Path.sep (Path.basename path) = false.
Proof.
  unfold Path.basename. destruct (Path.trimmedRev path) as [|b rest] eqn:E;
    [reflexivity|].
  apply (split_segments_no_sep Path.sep path).
  apply in_rev. apply (dropWhile_incl isEmpty). unfold Path.trimmedRev in E.
  rewrite E. left. reflexivity.
Qed.

Lemma hasChar_app (c : ascii) (a b : string) :
  hasChar c (a ++ b)%string = hasChar c a || hasChar c b.
Proof.
  induction a as [|x a IH]; simpl; [reflexivity|].
  rewrite IH. apply orb_assoc.
Qed.

Lemma startsWith_hasChar (c : ascii) (s : string) :
  hasChar c s = false -> startsWith c s = false.
Proof.
  destruct s as [|a s]; simpl; [reflexivity|].
  intro H. apply orb_false_iff in H. apply H.
Qed.

Lemma endsWith_hasChar (c : ascii) (s : string) :
  hasChar c s = false -> endsWith c s = false.
Proof.
  induction s as [|a s IH]; [reflexivity|].
  intro H. simpl in H. apply orb_false_iff in H. destruct H as [Ha Hs].
  destruct s as [|a' s']; [exact Ha | exact (IH Hs)].
Qed.

Lemma endsWith_app (c : ascii) (a : string) (x : ascii) (b : string) :
  endsWith c (a ++ String x b)%string = endsWith c (String x b).
Proof.
  induction a as [|y a IH]; [reflexivity|].
  change (String y a ++ String x b)%string with (String y (a ++ String x b)%string).
  destruct a as [|y' a']; simpl in *; exact IH.
Qed.

Lemma ordinaryName_inv (b : string) :
  ordinaryName b = true ->
  isEmpty b = false /\ String.eqb b "." = false /\ String.eqb b ".." = false.
Proof.
  unfold ordinaryName. intro H. apply negb_true_iff in H.
  apply orb_false_iff in H. destruct H as [H H3].
  apply orb_false_iff in H. destruct H as [H1 H2].
  repeat split; assumption.
Qed.

Lemma normalize_ordinary (a : string) :
  ordinaryName a = true -> hasChar Path.sep a = false -> Path.normalize a = a.
Proof.
  intros Ho Hc. destruct (ordinaryName_inv a Ho) as [He [H1 H2]].
  unfold Path.normalize, Path.normalizeString, Path.isAbsolute.
  rewrite He, (startsWith_hasChar _ _ Hc), (endsWith_hasChar _ _ Hc).
  rewrite (split_no_sep _ _ Hc). simpl.
  unfold Path.normalizeStep. rewrite He, H1, H2. simpl. rewrite He. reflexivity.
Qed.

Lemma normalize_ordinary_pair (a b : string) :
  ordinaryName a = true -> hasChar Path.sep a = false ->
  ordinaryName b = true -> hasChar Path.sep b = false ->
  Path.normalize (a ++ "/" ++ b) = (a ++ "/" ++ b)%string.
Proof.
  intros Hoa Hca Hob Hcb.
  destruct (ordinaryName_inv a Hoa) as [Hea [Ha1 Ha2]].
  destruct (ordinaryName_inv b Hob) as [Heb [Hb1 Hb2]].
  change (a ++ "/" ++ b)%string with (a ++ String Path.sep b)%string.
  assert (Hne : isEmpty (a ++ String Path.sep b) = false).
  { destruct a; [discriminate Hea | reflexivity]. }
  assert (Habs : startsWith Path.sep (a ++ String Path.sep b) = false).
  { destruct a as [|x a]; [discriminate Hea|].
    simpl in *. apply orb_false_iff in Hca. apply Hca. }
  assert (Hend : endsWith Path.sep (a ++ String Path.sep b) = false).
  { rewrite endsWith_app. destruct b as [|y b]; [discriminate Heb|].
    change (endsWith Path.sep (String Path.sep (String y b)))
      with (endsWith Path.sep (String y b)).
    apply endsWith_hasChar. exact Hcb. }
  unfold Path.normalize, Path.normalizeString, Path.isAbsolute.
  rewrite Hne, Habs, Hend.
  rewrite (split_app_sep _ _ _ Hca), (split_no_sep _ _ Hcb). simpl.
  unfold Path.normalizeStep. rewrite Hea, Ha1, Ha2, Heb, Hb1, Hb2. simpl.
  change (String "/" b) with (String Path.sep b).
  rewrite Hne. reflexivity.
Qed.

(** With ordinary names the nested key is [parent/child]. *)
Lemma nestedKey_ordinary (parent child : Folder) :
  ordinaryName (Path.basename (folder_path parent)) = true ->
  ordinaryName (Path.basename (folder_path child)) = true ->
  nestedKey parent child =
  (Path.basename (folder_path parent) ++ "/" ++ Path.basename (folder_path child))%string.
Proof.
  intros Hp Hc. unfold nestedKey.
  set (bp := Path.basename (folder_path parent)) in *.
  set (bc := Path.basename (folder_path child)) in *.
  assert (Hsp : hasChar Path.sep bp = false) by apply basename_no_sep.
  assert (Hsc : hasChar Path.sep bc = false) by apply basename_no_sep.
  destruct (ordinaryName_inv bp Hp) as [Hep _].
  destruct (ordinaryName_inv bc Hc) as [Hec _].
  assert (E1 : Path.join [""; bp] = bp).
  { unfold Path.join. simpl. rewrite Hep. simpl.
    apply normalize_ordinary; assumption. }
  rewrite E1. unfold Path.join. simpl. rewrite Hep, Hec. simpl.
  apply normalize_ordinary_pair; assumption.
Qed.

(** Without distinct sibling names a nested slice can be lost: in a layer
    in which two sibling folders carry the same base name, the slice found
    below the first one is overwritten by the slice found below the
    second. *)
Lemma nested_slice_overwritten_on_twoCarts : ~ reportsNestedSlices twoCarts [].
Proof.
  intro H.
  specialize
    (H eq_refl 0
       (mkFolder "src/features/cart"
          [folder "src/features/cart/item" [file "src/features/cart/item/ui.ts"]])
       0
       (mkFolder "src/features/cart/item" [file "src/features/cart/item/ui.ts"])
       eq_refl eq_refl eq_refl eq_refl).
  vm_compute in H. discriminate H.
Qed.

(** The write of a nested slice on any layer.  When a direct child folder
    of the layer is not a slice and
    one of its child folders is, [getSlices] writes that grandchild under
    the key [path.join(path.join("", parent), child)] of the two base names;
    unless the key is [__proto__], the result holds under it the folder of
    the last write to that key, which is the grandchild when no other folder
    is recorded under the key; and when both base names are ordinary (not
    empty, [.] or [..]) the key is [parent/child] and is not [__proto__]. *)
Theorem getSlices_nested_slice (slicedLayer : Folder) (extras : list string)
    (i j : nat) (parent child : Folder) :
  nth_error (children slicedLayer) i = Some (NFolder parent) ->
  isSlice parent extras = false ->
  nth_error (children parent) j = Some (NFolder child) ->
  isSlice child extras = true ->
  In ([i; j], (nestedKey parent child, child)) (sliceTrace slicedLayer extras)
  /\ (nestedKey parent child <> "__proto__" ->
      get (nestedKey parent child) (getSlices slicedLayer extras)
      = option_map (fun w : Write => snd (snd w))
          (findLast (fun w : Write => String.eqb (fst (snd w)) (nestedKey parent child))
             (sliceTrace slicedLayer extras)))
  /\ (nestedKey parent child <> "__proto__" ->
      (forall pos f,
         In (pos, (nestedKey parent child, f)) (sliceTrace slicedLayer extras) ->
         pos = [i; j]) ->
      get (nestedKey parent child) (getSlices slicedLayer extras) = Some child)
  /\ (ordinaryName (Path.basename (folder_path parent)) = true ->
      ordinaryName (Path.basename (folder_path child)) = true ->
      nestedKey parent child =
        (Path.basename (folder_path parent) ++ "/"
         ++ Path.basename (folder_path child))%string
      /\ nestedKey parent child <> "__proto__").
Proof.
  intros Hp Hps Hc Hcs.
  assert (Hin : In ([i; j], (nestedKey parent child, child))
                   (sliceTrace slicedLayer extras)).
  { unfold sliceTrace. apply in_overFolders.
    exists i, parent, ([j], (nestedKey parent child, child)).
    split; [exact Hp|]. split; [|reflexivity].
    rewrite traverseTrace_eq, Hps. apply in_overFolders.
    exists j, child, ([], (nestedKey parent child, child)).
    split; [exact Hc|]. split; [|reflexivity].
    rewrite traverseTrace_eq, Hcs. left. reflexivity. }
  split; [exact Hin|]. split; [|split].
  - intro Hproto. rewrite getSlices_replay, get_replay.
    destruct (String.eqb (nestedKey parent child) "__proto__") eqn:E.
    { apply String.eqb_eq in E. contradiction. }
    destruct (findLast _ (sliceTrace slicedLayer extras)); reflexivity.
  - intros Hproto Huniq. rewrite getSlices_replay, get_replay.
    destruct (String.eqb (nestedKey parent child) "__proto__") eqn:E.
    { apply String.eqb_eq in E. contradiction. }
    unfold findLast.
    destruct (find_hit (fun w : Write => String.eqb (fst (snd w)) (nestedKey parent child))
                (rev (sliceTrace slicedLayer extras))
                ([i; j], (nestedKey parent child, child)))
      as [[pos [k f]] [Hfind Hk]].
    + apply in_rev in Hin. exact Hin.
    + apply String.eqb_refl.
    + rewrite Hfind. simpl in *. apply String.eqb_eq in Hk. subst k.
      apply find_some in Hfind. destruct Hfind as [Hf _].
      apply in_rev in Hf. pose proof (Huniq _ _ Hf) as Epos. subst pos.
      destruct (sliceTrace_sound _ _ _ _ _ Hf) as [Hat _].
      destruct (sliceTrace_sound _ _ _ _ _ Hin) as [Hat' _].
      rewrite Hat in Hat'. exact Hat'.
  - intros Hop Hoc. pose proof (nestedKey_ordinary parent child Hop Hoc) as E.
    split; [exact E|].
    intro Hproto. rewrite E in Hproto.
    assert (Hs : hasChar Path.sep
                   (Path.basename (folder_path parent) ++ "/"
                    ++ Path.basename (folder_path child)) = true).
    { rewrite hasChar_app. simpl. apply orb_true_r. }
    rewrite Hproto in Hs. discriminate Hs.
Qed.

(** The same at a layer whose nested slice is the only folder recorded
    under its key. *)
Lemma getSlices_nested_slice_witness :
  get "cart/item" (getSlices featuresLayer []) =
  Some (mkFolder "src/features/cart/item" [file "src/features/cart/item/ui.ts"]).
Proof.
  pose proof
    (getSlices_nested_slice featuresLayer [] 0 0
       (mkFolder "src/features/cart"
          [folder "src/features/cart/item" [file "src/features/cart/item/ui.ts"]])
       (mkFolder "src/features/cart/item" [file "src/features/cart/item/ui.ts"])
       eq_refl eq_refl eq_refl eq_refl) as [_ [_ [H _]]].
  apply H.
  - vm_compute. discriminate.
  - intros pos f Hin. vm_compute in Hin.
    destruct Hin as [E | [E | []]]; [inversion E; reflexivity | discriminate E].
Defined.

(** ** Merging the slices of the layers *)

Lemma NoDup_keys_replay (tr : list Write) (s : obj Folder) :
  NoDup (keys s) -> NoDup (keys (replay tr s)).
Proof.
  revert s. induction tr as [|w tr IH]; intros s H; [exact H|].
  apply IH. unfold assign.
  destruct (String.eqb (fst (snd w)) "__proto__"); [exact H|].
  apply NoDup_keys_set. exact H.
Qed.

Lemma NoDup_keys_getSlices (slicedLayer : Folder) (extras : list string) :
  NoDup (keys (getSlices slicedLayer extras)).
Proof. rewrite getSlices_replay. apply NoDup_keys_replay. constructor. Qed.

Lemma get_map_values {A B : Type} (h : A -> B) (k : string) (o : obj A) :
  get k (map (fun e => (fst e, h (snd e))) o) = option_map h (get k o).
Proof.
  induction o as [|[k0 v0] o IH]; simpl; [reflexivity|].
  destruct (String.eqb k0 k); [reflexivity | exact IH].
Qed.

Lemma keys_map_values {A B : Type} (h : A -> B) (o : obj A) :
  keys (map (fun e => (fst e, h (snd e))) o) = keys o.
Proof. unfold keys. rewrite map_map. reflexivity. Qed.

(** Rebuilding an object with each value transformed. *)
Lemma get_fromEntries_map_values {A B : Type} (h : A -> B) (k : string) (o : obj A) :
  NoDup (keys o) ->
  get k (fromEntries (map (fun e => (fst e, h (snd e))) (entries o)))
  = option_map h (get k o).
Proof.
  intro H. unfold fromEntries, entries. rewrite get_fold_setEntry. simpl.
  rewrite findLast_get by (rewrite keys_map_values; exact H).
  apply get_map_values.
Qed.

Lemma get_merge_layer (extras : list string) (k : string)
    (slices : obj LayeredFolder) (layer : Folder) :
  get k
    (spread slices
       (fromEntries
          (map
             (fun entry =>
                (fst entry,
                 withLayerName (snd entry) (Path.basename (folder_path layer))))
             (entries (getSlices layer extras)))))
  = match get k (getSlices layer extras) with
    | Some slice => Some (withLayerName slice (Path.basename (folder_path layer)))
    | None => get k slices
    end.
Proof.
  rewrite get_spread by apply NoDup_keys_fromEntries.
  rewrite (get_fromEntries_map_values
             (fun slice => withLayerName slice (Path.basename (folder_path layer))))
    by apply NoDup_keys_getSlices.
  destruct (get k (getSlices layer extras)); reflexivity.
Qed.

Lemma in_foldersOf (ns : list FileSystemNode) (d : Folder) :
  In d (foldersOf ns) <-> In (NFolder d) ns.
Proof.
  unfold foldersOf. rewrite in_flat_map. split.
  - intros [n [Hin Hd]]. destruct n as [f|d']; [destruct Hd|].
    destruct Hd as [E | []]. subst d'. exact Hin.
  - intro Hin. exists (NFolder d). split; [exact Hin | left; reflexivity].
Qed.

(** C7. Under every slice name [getAllSlices] holds the slice that
    [getSlices] finds under that name in the last of the sliced layers of
    [getLayers] that has one, with the fields of the folder and a
    [layerName] equal to the base name of that layer; it holds nothing under
    a name that no sliced layer has.  So the result is the union of
    [getSlices] over the sliced layers, a later layer overwriting an earlier
    one on a common name.  The layers gone through are exactly the values of
    [getLayers] for which [isSliced] holds. *)
Theorem getAllSlices_spec (fsdRoot : Folder) (extras : list string) (k : string) :
  get k (getAllSlices fsdRoot extras) = lastSliceNamed extras k (slicedLayersOf fsdRoot)
  /\ forall layer,
       In layer (slicedLayersOf fsdRoot) <->
       In (NFolder layer) (values (getLayers fsdRoot)) /\ isSliced (inl layer) = true.
Proof.
  split.
  - unfold getAllSlices, lastSliceNamed. fold (slicedLayersOf fsdRoot).
    change (@None LayeredFolder) with (get k (@nil (string * LayeredFolder))).
    generalize (@nil (string * LayeredFolder)) as acc.
    induction (slicedLayersOf fsdRoot) as [|layer layers IH]; intro acc; [reflexivity|].
    simpl. rewrite IH, get_merge_layer. reflexivity.
  - intro layer. unfold slicedLayersOf. rewrite filter_In, in_foldersOf. reflexivity.
Qed.

(** The theorem at a root with one sliced and one unsliced layer. *)
Lemma getAllSlices_spec_witness :
  get "auth" (getAllSlices smallRoot []) =
    Some (mkLayered "src/features/auth"
            [folder "src/features/auth/ui" []; file "src/features/auth/index.ts"]
            "features")
  /\ In featuresLayer (slicedLayersOf smallRoot).
Proof.
  split.
  - rewrite (proj1 (getAllSlices_spec smallRoot [] "auth")). reflexivity.
  - apply (proj2 (getAllSlices_spec smallRoot [] "auth")).
    split; [left; reflexivity | reflexivity].
Defined.

(** ** Runs return *)

Lemma depth_eq (d : Folder) :
  depth d =
  S (fold_right
       (fun child m =>
          Nat.max (match child with NFolder c => depth c | NFile _ => 0 end) m)
       0 (children d)).
Proof. destruct d; reflexivity. Qed.

Lemma depth_child (d c : Folder) : In (NFolder c) (children d) -> depth c < depth d.
Proof.
  rewrite (depth_eq d). generalize (children d) as cs.
  induction cs as [|n cs IH]; simpl; [intros []|].
  intros [E | Hin].
  - subst n. lia.
  - specialize (IH Hin). lia.
Qed.

Lemma fold_left_folders_some {S : Type} (g : Folder -> S -> option S)
    (h : Folder -> S -> S) (cs : list FileSystemNode) :
  (forall c, In (NFolder c) cs -> forall s, g c s = Some (h c s)) ->
  forall s,
    fold_left
      (fun acc child =>
         match acc, child with
         | None, _ => None
         | Some s', NFolder d => g d s'
         | Some s', NFile _ => Some s'
         end)
      cs (Some s)
    = Some (fold_left
              (fun acc child => match child with NFolder d => h d acc | NFile _ => acc end)
              cs s).
Proof.
  induction cs as [|n cs IH]; intros H s; [reflexivity|].
  simpl. destruct n as [f|c].
  - apply IH. intros c Hin. apply H. right. exact Hin.
  - rewrite (H c (or_introl eq_refl)). apply IH.
    intros c' Hin. apply H. right. exact Hin.
Qed.

(** A budget of the depth of the folder is enough for [traverse]. *)
Lemma Run_traverse_returns (extras : list string) (folder : Folder) :
  forall budget pre s,
    depth folder <= budget ->
    Run.traverse budget extras folder pre s = Some (traverse extras folder pre s).
Proof.
  induction folder as [folder IH] using Folder_children_ind.
  intros budget pre s Hd. destruct budget as [|budget].
  - rewrite depth_eq in Hd. lia.
  - simpl. rewrite traverse_eq. destruct (isSlice folder extras); [reflexivity|].
    apply (fold_left_folders_some
             (fun d acc => Run.traverse budget extras d
                             (Path.join [pre; Path.basename (folder_path folder)]) acc)
             (fun d acc => traverse extras d
                             (Path.join [pre; Path.basename (folder_path folder)]) acc)).
    intros c Hin s'. apply IH; [exact Hin|].
    pose proof (depth_child folder c Hin). lia.
Qed.

Lemma Run_getSlices_returns (extras : list string) (layer : Folder) (budget : nat) :
  depth layer <= budget ->
  Run.getSlices budget (NFolder layer) extras = Some (getSlices layer extras).
Proof.
  intro Hd. unfold Run.getSlices, getSlices.
  apply (fold_left_folders_some
           (fun d acc => Run.traverse budget extras d "" acc)
           (fun d acc => traverse extras d "" acc)).
  intros c Hin s. apply Run_traverse_returns.
  pose proof (depth_child layer c Hin). lia.
Qed.

Lemma Run_merge_layers (extras : list string) (budget : nat)
    (vs : list FileSystemNode) :
  (forall v, In v vs -> exists layer, v = NFolder layer /\ depth layer <= budget) ->
  forall acc,
    fold_left
      (fun acc layer =>
         match acc with
         | None => None
         | Some slices =>
             match Run.getSlices budget layer extras with
             | None => None
             | Some found =>
                 Some
                   (spread slices
                      (fromEntries
                         (map
                            (fun entry =>
                               (fst entry,
                                withLayerName (snd entry)
                                  (Path.basename (node_path layer))))
                            (entries found))))
             end
         end)
      (filter Run.isSliced vs) (Some acc)
    = Some
        (fold_left
           (fun slices layer =>
              spread slices
                (fromEntries
                   (map
                      (fun entry =>
                         (fst entry,
                          withLayerName (snd entry) (Path.basename (folder_path layer))))
                      (entries (getSlices layer extras)))))
           (filter (fun layer => isSliced (inl layer)) (foldersOf vs)) acc).
Proof.
  induction vs as [|v vs IH]; intros H acc; [reflexivity|].
  destruct (H v (or_introl eq_refl)) as [layer [E Hd]]. subst v.
  assert (Hvs : forall v, In v vs ->
                          exists layer, v = NFolder layer /\ depth layer <= budget).
  { intros v Hin. apply H. right. exact Hin. }
  change (foldersOf (NFolder layer :: vs)) with (layer :: foldersOf vs).
  simpl filter. change (Run.isSliced (NFolder layer)) with (isSliced (inl layer)).
  destruct (isSliced (inl layer)); [|exact (IH Hvs acc)].
  cbn [fold_left]. rewrite (Run_getSlices_returns extras layer budget Hd).
  exact (IH Hvs _).
Qed.

Lemma layer_values (fsdRoot : Folder) (budget : nat) (v : FileSystemNode) :
  depth fsdRoot <= budget ->
  In v (values (getLayers fsdRoot)) ->
  exists layer, v = NFolder layer /\ depth layer <= budget.
Proof.
  intros Hd Hin. apply values_getLayers in Hin. destruct Hin as [Hin Hl].
  destruct v as [f|layer]; [discriminate Hl|].
  exists layer. split; [reflexivity|].
  pose proof (depth_child fsdRoot layer Hin). lia.
Qed.

Lemma flatMapM_returns {A B : Type} (f : A -> option (list B)) (g : A -> list B)
    (l : list A) :
  (forall x, In x l -> f x = Some (g x)) -> Run.flatMapM f l = Some (flat_map g l).
Proof.
  induction l as [|x l IH]; intro H; [reflexivity|].
  simpl. rewrite (H x (or_introl eq_refl)), IH; [reflexivity|].
  intros y Hin. apply H. right. exact Hin.
Qed.

Lemma Run_getAllSegments_returns (fsdRoot : Folder) (budget : nat) :
  depth fsdRoot <= budget ->
  Run.getAllSegments budget fsdRoot = Some (getAllSegments fsdRoot).
Proof.
  intro Hd. unfold Run.getAllSegments, getAllSegments.
  apply flatMapM_returns. intros [name v] Hin. simpl.
  assert (Hv : In v (values (getLayers fsdRoot))).
  { unfold values. apply in_map_iff. exists (name, v). split; [reflexivity | exact Hin]. }
  destruct (layer_values fsdRoot budget v Hd Hv) as [layer [E Hl]]. subst v.
  change (Run.isSliced (NFolder layer)) with (isSliced (inl layer)).
  destruct (isSliced (inl layer)); [|reflexivity].
  rewrite (Run_getSlices_returns [] layer budget Hl).
  apply flatMapM_returns. intros sl _. reflexivity.
Qed.

Lemma filter_none {A : Type} (p : A -> bool) (l : list A) :
  existsb p l = false -> filter p l = [].
Proof.
  induction l as [|x l IH]; simpl; [reflexivity|].
  intro H. apply orb_false_iff in H. destruct H as [Hx Hl].
  rewrite Hx. exact (IH Hl).
Qed.

Lemma filter_negb_none {A : Type} (p : A -> bool) (l : list A) :
  forallb p l = true -> filter (fun x => negb (p x)) l = [].
Proof.
  induction l as [|x l IH]; simpl; [reflexivity|].
  intro H. apply andb_true_iff in H. destruct H as [Hx Hl].
  rewrite Hx. exact (IH Hl).
Qed.

Lemma sliceTrace_none (slicedLayer : Folder) (extras : list string) :
  (forall pos f, folderAt slicedLayer pos = Some f -> pos <> [] ->
                 isSlice f extras = false) ->
  sliceTrace slicedLayer extras = [].
Proof.
  intro H. destruct (sliceTrace slicedLayer extras) as [|[pos [k f]] tr] eqn:E;
    [reflexivity|].
  assert (Hin : In (pos, (k, f)) (sliceTrace slicedLayer extras)).
  { rewrite E. left. reflexivity. }
  destruct (sliceTrace_sound _ _ _ _ _ Hin) as [Hat Hs].
  unfold sliceTrace in Hin. apply overFolders_head in Hin.
  destruct Hin as [i [p [Ep _]]]. simpl in Ep.
  rewrite (H pos f Hat) in Hs; [discriminate Hs|].
  rewrite Ep. discriminate.
Qed.

(** C8. Read with an explicit call budget and with the access to the
    children of a file raising, [getSlices], [getAllSlices] and
    [getAllSegments] return, on every tree and for every budget of at least
    the depth of the tree, the value of the total functions above; the other
    operations contain neither recursion nor an access that can fail.  Where
    nothing matches the result is empty or [false]: no layer folder among the
    children gives empty [getLayers], [getAllSlices] and [getAllSegments]; no
    slice below the layer gives empty [getSlices]; no index file gives empty
    [getIndexes]; only index files gives empty [getSegments]; a folder is
    not an index; a folder without children is not a slice; a file whose
    name is not the target is not a cross-import public API. *)
Theorem classifier_total (fsdRoot : Folder) (extras : list string) :
  (forall budget,
     depth fsdRoot <= budget ->
     Run.getSlices budget (NFolder fsdRoot) extras = Some (getSlices fsdRoot extras)
     /\ Run.getAllSlices budget fsdRoot extras = Some (getAllSlices fsdRoot extras)
     /\ Run.getAllSegments budget fsdRoot = Some (getAllSegments fsdRoot))
  /\ (existsb isLayerFolder (children fsdRoot) = false ->
      getLayers fsdRoot = []
      /\ getAllSlices fsdRoot extras = []
      /\ getAllSegments fsdRoot = [])
  /\ ((forall pos f, folderAt fsdRoot pos = Some f -> pos <> [] ->
                     isSlice f extras = false) ->
      getSlices fsdRoot extras = [])
  /\ (existsb isIndex (children fsdRoot) = false -> getIndexes (NFolder fsdRoot) = [])
  /\ (forallb isIndex (children fsdRoot) = true -> getSegments fsdRoot = [])
  /\ isIndex (NFolder fsdRoot) = false
  /\ (children fsdRoot = [] -> isSlice fsdRoot extras = false)
  /\ (forall file inSlice forSlice layerPath,
        String.eqb (Path.name (Path.parse (file_path file))) forSlice = false ->
        isCrossImportPublicApi file inSlice forSlice layerPath = false).
Proof.
  split; [|split; [|split; [|split; [|split; [|split; [|split]]]]]].
  - intros budget Hd. split; [|split].
    + apply Run_getSlices_returns. exact Hd.
    + unfold Run.getAllSlices, getAllSlices. apply Run_merge_layers.
      intros v Hin. apply (layer_values fsdRoot); assumption.
    + apply Run_getAllSegments_returns. exact Hd.
  - intro H.
    assert (E : getLayers fsdRoot = []).
    { unfold getLayers.
      change (fun child =>
                isFolderNode child
                && includes layerSequence (Path.basename (node_path child)))
        with isLayerFolder.
      rewrite (filter_none _ _ H). reflexivity. }
    split; [exact E|]. split.
    + unfold getAllSlices. rewrite E. reflexivity.
    + unfold getAllSegments. rewrite E. reflexivity.
  - intro H. rewrite getSlices_replay, (sliceTrace_none _ _ H). reflexivity.
  - intro H. simpl. apply filter_none. exact H.
  - intro H. unfold getSegments. rewrite (filter_negb_none _ _ H). reflexivity.
  - reflexivity.
  - intro H. unfold isSlice. rewrite H. reflexivity.
  - intros file0 inSlice forSlice layerPath H.
    unfold isCrossImportPublicApi. rewrite H. reflexivity.
Qed.

(** The theorem at a root of depth three and at a layer without index
    file. *)
Lemma classifier_total_witness :
  depth smallRoot <= 4
  /\ Run.getAllSegments 4 smallRoot = Some (getAllSegments smallRoot)
  /\ getIndexes (NFolder featuresLayer) = [].
Proof.
  assert (Hd : depth smallRoot <= 4) by (simpl; lia).
  split; [exact Hd|]. split.
  - apply (proj1 (classifier_total smallRoot [])). exact Hd.
  - apply (proj1 (proj2 (proj2 (proj2 (classifier_total featuresLayer []))))).
    reflexivity.
Defined.

(** * Further properties *)

(** ** Cutting one extension *)

Lemma lastIndexOfFrom_none (c : ascii) (s : string) (i : nat) :
  hasChar c s = false -> lastIndexOfFrom c s i = None.
Proof.
  revert i. induction s as [|a s IH]; intros i H; [reflexivity|].
  simpl in *. apply orb_false_iff in H. destruct H as [Ha Hs].
  rewrite (IH (S i) Hs), Ha. reflexivity.
Qed.

Lemma lastIndexOfFrom_none_inv (c : ascii) (s : string) (i : nat) :
  lastIndexOfFrom c s i = None -> hasChar c s = false.
Proof.
  revert i. induction s as [|a s IH]; intros i H; [reflexivity|].
  simpl in *. destruct (lastIndexOfFrom c s (S i)) eqn:E; [discriminate H|].
  destruct (Ascii.eqb a c); [discriminate H|].
  exact (IH (S i) E).
Qed.

Lemma lastIndexOfFrom_app (c : ascii) (name ext : string) (i : nat) :
  hasChar c ext = false ->
  lastIndexOfFrom c (name ++ String c ext) i = Some (i + String.length name).
Proof.
  intro H. revert i. induction name as [|a name IH]; intro i; simpl.
  - rewrite (lastIndexOfFrom_none c ext (S i) H), Ascii.eqb_refl.
    rewrite Nat.add_0_r. reflexivity.
  - rewrite (IH (S i)). f_equal. lia.
Qed.

Lemma substring_prefix (name rest : string) :
  substring 0 (String.length name) (name ++ rest) = name.
Proof.
  induction name as [|a name IH]; simpl; [apply substring_0_0|].
  rewrite IH. reflexivity.
Qed.

Lemma lastIndexOfFrom_split (c : ascii) (s : string) (i j : nat) :
  lastIndexOfFrom c s i = Some j ->
  exists ext, hasChar c ext = false
              /\ s = (substring 0 (j - i) s ++ String c ext)%string.
Proof.
  revert i. induction s as [|a s IH]; intro i; simpl; [discriminate|].
  destruct (lastIndexOfFrom c s (S i)) as [j'|] eqn:E.
  - intro H. inversion H. subst j'.
    pose proof (lastIndexOfFrom_spec c s (S i) j E) as [Hle _].
    destruct (IH (S i) E) as [ext [Hext Hs]].
    exists ext. split; [exact Hext|].
    replace (j - i) with (S (j - S i)) by lia. simpl. f_equal. exact Hs.
  - destruct (Ascii.eqb a c) eqn:Ea; [|discriminate].
    intro H. inversion H. subst j. apply Ascii.eqb_eq in Ea. subst a.
    exists s. split; [exact (lastIndexOfFrom_none_inv c s (S i) E)|].
    rewrite Nat.sub_diag. reflexivity.
Qed.

(** X1. [withoutExtension] cuts exactly one extension: a file name without
    dot is returned as it is; a name followed by a dot and a dot-free
    extension is cut back to the name; and every file name is either
    unchanged or the result followed by a dot and a dot-free extension. *)
Theorem withoutExtension_cuts_one_extension (filename : string) :
  (hasChar Path.dot filename = false -> Earlier.withoutExtension filename = filename)
  /\ (forall name ext,
        hasChar Path.dot ext = false ->
        filename = (name ++ "." ++ ext)%string ->
        Earlier.withoutExtension filename = name)
  /\ (Earlier.withoutExtension filename = filename
      \/ exists ext,
           hasChar Path.dot ext = false
           /\ filename = (Earlier.withoutExtension filename ++ "." ++ ext)%string).
Proof.
  unfold Earlier.withoutExtension, lastIndexOf. split; [|split].
  - intro H. rewrite (lastIndexOfFrom_none _ _ 0 H). reflexivity.
  - intros name ext Hext E. subst filename.
    change (name ++ "." ++ ext)%string with (name ++ String Path.dot ext)%string.
    rewrite (lastIndexOfFrom_app _ _ _ 0 Hext). simpl.
    unfold sliceTo. apply substring_prefix.
  - destruct (lastIndexOfFrom Path.dot filename 0) as [j|] eqn:E; [|left; reflexivity].
    right. destruct (lastIndexOfFrom_split _ _ _ _ E) as [ext [Hext Hs]].
    exists ext. split; [exact Hext|].
    rewrite Nat.sub_0_r in Hs. exact Hs.
Qed.

(** The theorem on the second example of the documentation comment. *)
Lemma withoutExtension_cuts_one_extension_witness :
  hasChar Path.dot "tsx" = false
  /\ Earlier.withoutExtension "index.spec.tsx" = "index.spec".
Proof.
  split; [reflexivity|].
  apply (proj1 (proj2 (withoutExtension_cuts_one_extension "index.spec.tsx"))
           "index.spec" "tsx"); reflexivity.
Defined.

(** ** The index of the earlier revision *)

Lemma withoutExtension_index_token (b : string) :
  Earlier.withoutExtension b = "index" -> beforeFirst Path.dot b = "index".
Proof.
  unfold Earlier.withoutExtension, lastIndexOf.
  destruct (lastIndexOfFrom Path.dot b 0) as [j|] eqn:E.
  - intro H. destruct (lastIndexOfFrom_split _ _ _ _ E) as [ext [_ Hs]].
    rewrite Nat.sub_0_r in Hs. unfold sliceTo in H. rewrite H in Hs.
    rewrite Hs. reflexivity.
  - intro H. rewrite H. reflexivity.
Qed.

(** X2. Whatever [getIndex] of the earlier revision returns is among the
    files [getIndexes] of the current revision returns for the same node,
    and for a folder it is one of the children; so where [getIndexes] is
    empty, [getIndex] is [undefined]. *)
Theorem getIndex_among_getIndexes (fileOrFolder : FileSystemNode) (f : File) :
  EarlierRest.getIndex fileOrFolder = Some f ->
  In (NFile f) (getIndexes fileOrFolder)
  /\ (forall d, fileOrFolder = NFolder d -> In (NFile f) (children d)).
Proof.
  destruct fileOrFolder as [f'|d]; simpl.
  - intro H. inversion H. subst f'. split; [left; reflexivity|].
    intros d E. discriminate E.
  - destruct (find _ (children d)) as [[f'|d']|] eqn:E; try discriminate.
    intro H. inversion H. subst f'. apply find_some in E. destruct E as [Hin Hp].
    simpl in Hp. apply String.eqb_eq in Hp.
    split.
    + apply filter_In. split; [exact Hin|].
      rewrite isIndex_isIndexFile. unfold isIndexFile, leadingToken. simpl.
      rewrite (withoutExtension_index_token _ Hp). reflexivity.
    + intros d0 E0. inversion E0. subst d0. exact Hin.
Qed.

(** The theorem at a folder with two index files: the first is returned. *)
Lemma getIndex_among_getIndexes_witness :
  EarlierRest.getIndex (NFolder uiSegment) = Some (mkFile "src/shared/ui/index.ts")
  /\ In (file "src/shared/ui/index.ts") (getIndexes (NFolder uiSegment)).
Proof.
  split; [reflexivity|].
  apply (getIndex_among_getIndexes (NFolder uiSegment) (mkFile "src/shared/ui/index.ts")).
  reflexivity.
Defined.

(** ** Children between indexes and segments *)

Lemma keyed_present {A : Type} (key : A -> string) (q : A -> bool)
    (cs : list A) (c : A) :
  In c cs -> q c = true ->
  exists v,
    get (key c) (fromEntries (map (fun x => (key x, x)) (filter q cs))) = Some v
    /\ In v cs /\ q v = true /\ key v = key c.
Proof.
  intros Hin Hq. rewrite get_fromEntries_keyed. unfold findLast.
  destruct (find_hit (fun x => q x && String.eqb (key x) (key c)) (rev cs) c)
    as [y [Hfind Hy]].
  - apply in_rev in Hin. exact Hin.
  - rewrite Hq, String.eqb_refl. reflexivity.
  - exists y. split; [exact Hfind|].
    apply find_some in Hfind. destruct Hfind as [Hyl _]. apply in_rev in Hyl.
    apply andb_true_iff in Hy. destruct Hy as [Hqy Hk]. apply String.eqb_eq in Hk.
    repeat split; assumption.
Qed.

Lemma keyed_values {A : Type} (key : A -> string) (q : A -> bool)
    (cs : list A) (v : A) :
  In v (values (fromEntries (map (fun x => (key x, x)) (filter q cs)))) ->
  In v cs /\ q v = true.
Proof.
  unfold values. intro H. apply in_map_iff in H. destruct H as [[k v'] [E Hin]].
  simpl in E. subst v'. apply in_fromEntries_keyed in Hin.
  destruct Hin as [H1 [H2 _]]. split; assumption.
Qed.

(** X3. In the earlier revision the file [getIndex] finds in a folder is
    never a value of [getSegments] of that folder, while every child that is
    a folder has its key in [getSegments], a folder named [index]
    included. *)
Theorem earlier_getSegments_and_getIndex (d : Folder) :
  (forall f,
     EarlierRest.getIndex (NFolder d) = Some f ->
     ~ In (NFile f) (values (EarlierRest.getSegments d)))
  /\ (forall child,
        In child (children d) -> isFolderNode child = true ->
        exists v,
          get (Earlier.withoutExtension (Path.basename (node_path child)))
            (EarlierRest.getSegments d) = Some v
          /\ In v (children d)).
Proof.
  split.
  - intros f H Hin. simpl in H.
    destruct (find _ (children d)) as [[f'|d']|] eqn:E; try discriminate.
    inversion H. subst f'. apply find_some in E. destruct E as [_ Hp].
    unfold EarlierRest.getSegments in Hin.
    apply (keyed_values
             (fun child => Earlier.withoutExtension (Path.basename (node_path child))))
      in Hin.
    destruct Hin as [_ Hq]. simpl in Hp, Hq. rewrite Hp in Hq. discriminate Hq.
  - intros child Hin Hf. unfold EarlierRest.getSegments.
    destruct (keyed_present
                (fun c => Earlier.withoutExtension (Path.basename (node_path c)))
                (fun c =>
                   negb (isFileNode c)
                   || negb
                        (String.eqb
                           (Earlier.withoutExtension (Path.basename (node_path c)))
                           "index"))
                (children d) child Hin) as [v [Hget [Hv _]]].
    + destruct child; [discriminate Hf | reflexivity].
    + exists v. split; assumption.
Qed.

(** The theorem at a slice with an index file and a folder. *)
Lemma earlier_getSegments_and_getIndex_witness :
  EarlierRest.getIndex (folder "src/features/auth"
                          [folder "src/features/auth/ui" []; file "src/features/auth/index.ts"])
    = Some (mkFile "src/features/auth/index.ts")
  /\ ~ In (file "src/features/auth/index.ts")
         (values (EarlierRest.getSegments
                    (mkFolder "src/features/auth"
                       [folder "src/features/auth/ui" [];
                        file "src/features/auth/index.ts"]))).
Proof.
  split; [reflexivity|].
  apply (proj1 (earlier_getSegments_and_getIndex
                  (mkFolder "src/features/auth"
                     [folder "src/features/auth/ui" [];
                      file "src/features/auth/index.ts"]))).
  reflexivity.
Defined.

(** X4. In the current revision every child of a folder is either an index,
    returned by [getIndexes] and not a value of [getSegments], or not an
    index, not returned by [getIndexes] and with its key in [getSegments],
    held by a child that is not an index either. *)
Theorem children_are_indexes_or_segments (d : Folder) (child : FileSystemNode) :
  In child (children d) ->
  (isIndex child = true
   /\ In child (getIndexes (NFolder d))
   /\ ~ In child (values (getSegments d)))
  \/ (isIndex child = false
      /\ ~ In child (getIndexes (NFolder d))
      /\ exists v,
           get (segmentKey child) (getSegments d) = Some v
           /\ In v (children d) /\ isIndex v = false
           /\ segmentKey v = segmentKey child).
Proof.
  intro Hin. destruct (isIndex child) eqn:Ei; [left | right].
  - split; [reflexivity|]. split.
    + simpl. apply filter_In. split; assumption.
    + intro Hv. unfold getSegments in Hv.
      apply (keyed_values (fun c => Path.name (Path.parse (node_path c)))) in Hv.
      destruct Hv as [_ Hq]. rewrite Ei in Hq. discriminate Hq.
  - split; [reflexivity|]. split.
    + simpl. intro Hx. apply filter_In in Hx. destruct Hx as [_ Hx].
      rewrite Ei in Hx. discriminate Hx.
    + unfold getSegments, segmentKey.
      destruct (keyed_present
                  (fun c => Path.name (Path.parse (node_path c)))
                  (fun c => negb (isIndex c)) (children d) child Hin)
        as [v [Hget [Hv [Hq Hk]]]].
      * rewrite Ei. reflexivity.
      * exists v. apply negb_true_iff in Hq. repeat split; assumption.
Qed.

(** The theorem at the helper file of a segment with two index files. *)
Lemma children_are_indexes_or_segments_witness :
  In (file "src/shared/ui/helper.ts") (children uiSegment)
  /\ exists v, get "helper" (getSegments uiSegment) = Some v.
Proof.
  assert (Hin : In (file "src/shared/ui/helper.ts") (children uiSegment)).
  { right. right. left. reflexivity. }
  split; [exact Hin|].
  destruct (children_are_indexes_or_segments uiSegment _ Hin)
    as [[Hi _] | [_ [_ [v [Hget _]]]]].
  - discriminate Hi.
  - exists v. exact Hget.
Defined.

(** ** Layers and their names *)

Lemma basename_idempotent (path : string) :
  Path.basename (Path.basename path) = Path.basename path.
Proof.
  pose proof (basename_no_sep path) as Hs.
  generalize dependent (Path.basename path). intros b Hs.
  unfold Path.basename, Path.trimmedRev. rewrite (split_no_sep _ _ Hs). simpl.
  destruct (isEmpty b) eqn:E; [|reflexivity].
  apply String.eqb_eq in E. subst b. reflexivity.
Qed.

Lemma includes_In (names : list string) (x : string) :
  includes names x = true <-> In x names.
Proof.
  unfold includes. rewrite existsb_exists. split.
  - intros [y [Hin Hy]]. apply String.eqb_eq in Hy. subst y. exact Hin.
  - intro Hin. exists x. split; [exact Hin | apply String.eqb_refl].
Qed.

Lemma getLayers_entry (fsdRoot : Folder) (k : string) (v : FileSystemNode) :
  In (k, v) (getLayers fsdRoot) ->
  In v (children fsdRoot) /\ isLayerFolder v = true
  /\ k = Path.basename (node_path v).
Proof.
  unfold getLayers. intro H.
  apply (in_fromEntries_keyed (fun child => Path.basename (node_path child))) in H.
  exact H.
Qed.

(** X5. [isSliced] looks at the base name only: it answers the same for a
    path and for its base name, and for a layer that [getLayers] holds it
    answers the same for the folder and for the key, is [false] exactly for
    the keys [shared] and [app], and the key is one of the six layer
    names. *)
Theorem isSliced_layer_and_name (fsdRoot : Folder) (k : string) (layer : Folder) :
  (forall name, isSliced (inr name) = isSliced (inr (Path.basename name)))
  /\ (get k (getLayers fsdRoot) = Some (NFolder layer) ->
      isSliced (inr k) = isSliced (inl layer)
      /\ In k layerSequence
      /\ (isSliced (inl layer) = false <-> k = "shared" \/ k = "app")).
Proof.
  split.
  - intro name. unfold isSliced. rewrite basename_idempotent. reflexivity.
  - intro H. apply get_in in H. apply getLayers_entry in H.
    destruct H as [_ [Hl Hk]]. simpl in Hk.
    assert (E : isSliced (inr k) = isSliced (inl layer)).
    { unfold isSliced. rewrite Hk, basename_idempotent. reflexivity. }
    split; [exact E|]. split.
    + unfold isLayerFolder in Hl. apply andb_true_iff in Hl. destruct Hl as [_ Hl].
      simpl in Hl. rewrite <- Hk in Hl. apply includes_In. exact Hl.
    + unfold isSliced. simpl folder_path. rewrite <- Hk.
      rewrite negb_false_iff, includes_In. simpl.
      split.
      * intros [E1 | [E1 | []]]; [left | right]; symmetry; exact E1.
      * intros [E1 | E1]; [left | right; left]; symmetry; exact E1.
Qed.

(** The theorem at the unsliced layer of a small root. *)
Lemma isSliced_layer_and_name_witness :
  get "shared" (getLayers smallRoot)
    = Some (folder "src/shared" [NFolder uiSegment; file "src/shared/index.ts"])
  /\ isSliced (inr "shared")
     = isSliced (inl (mkFolder "src/shared" [NFolder uiSegment; file "src/shared/index.ts"])).
Proof.
  split; [reflexivity|].
  exact (proj1 (proj2 (isSliced_layer_and_name smallRoot "shared"
                         (mkFolder "src/shared"
                            [NFolder uiSegment; file "src/shared/index.ts"]))
                  eq_refl)).
Defined.

(** X6. [getLayers] never holds more than six entries, and each of its keys
    is one of the six layer names; the earlier revision, which spells the
    six names out, returns the same object. *)
Theorem getLayers_at_most_six (fsdRoot : Folder) :
  List.length (getLayers fsdRoot) <= 6
  /\ incl (keys (getLayers fsdRoot)) layerSequence
  /\ EarlierRest.getLayers fsdRoot = getLayers fsdRoot.
Proof.
  assert (Hincl : incl (keys (getLayers fsdRoot)) layerSequence).
  { intros k Hk. unfold keys in Hk. apply in_map_iff in Hk.
    destruct Hk as [[k' v] [E Hin]]. simpl in E. subst k'.
    apply getLayers_entry in Hin. destruct Hin as [_ [Hl Hk]].
    unfold isLayerFolder in Hl. apply andb_true_iff in Hl. destruct Hl as [_ Hl].
    rewrite Hk. apply includes_In. exact Hl. }
  split; [|split; [exact Hincl | reflexivity]].
  change 6 with (List.length layerSequence).
  rewrite <- (length_map fst (getLayers fsdRoot)).
  apply NoDup_incl_length; [|exact Hincl].
  apply NoDup_keys_fromEntries.
Qed.

(** ** Additional segment names *)

Lemma includes_app (a b : list string) (x : string) :
  includes (a ++ b) x = includes a x || includes b x.
Proof. unfold includes. apply existsb_app. Qed.

Lemma existsb_impl {A : Type} (p q : A -> bool) (l : list A) :
  (forall x, p x = true -> q x = true) -> existsb p l = true -> existsb q l = true.
Proof.
  intros H Hp. apply existsb_exists in Hp. destruct Hp as [x [Hin Hx]].
  apply existsb_exists. exists x. split; [exact Hin | exact (H x Hx)].
Qed.

Lemma direct_slice_written (slicedLayer : Folder) (extras : list string)
    (i : nat) (c : Folder) :
  nth_error (children slicedLayer) i = Some (NFolder c) ->
  isSlice c extras = true ->
  In ([i], (Path.join [""; Path.basename (folder_path c)], c))
     (sliceTrace slicedLayer extras).
Proof.
  intros Hn Hs. unfold sliceTrace. apply in_overFolders.
  exists i, c, ([], (Path.join [""; Path.basename (folder_path c)], c)).
  split; [exact Hn|]. split; [|reflexivity].
  rewrite traverseTrace_eq, Hs. left. reflexivity.
Qed.

(** X7. Additional segment names only add slices at the level of one
    folder: a folder that satisfies [isSlice] with some names satisfies it
    with any names added before or after; so a direct child of a layer that
    is a slice is still written by [getSlices], from the same place and
    under the same key, when names are added. *)
Theorem isSlice_monotone (folder0 : Folder) (extras more : list string) :
  isSlice folder0 extras = true ->
  isSlice folder0 (extras ++ more) = true
  /\ isSlice folder0 (more ++ extras) = true
  /\ forall slicedLayer i,
       nth_error (children slicedLayer) i = Some (NFolder folder0) ->
       In ([i], (Path.join [""; Path.basename (folder_path folder0)], folder0))
          (sliceTrace slicedLayer (extras ++ more)).
Proof.
  intro H.
  assert (H1 : isSlice folder0 (extras ++ more) = true).
  { unfold isSlice in *. revert H. apply existsb_impl. intros child Hc.
    rewrite includes_app in *. apply orb_true_iff in Hc.
    destruct Hc as [Hc | Hc]; [rewrite Hc; reflexivity|].
    rewrite includes_app, Hc. rewrite orb_true_r. reflexivity. }
  split; [exact H1|]. split.
  - unfold isSlice in *. revert H. apply existsb_impl. intros child Hc.
    rewrite includes_app in *. apply orb_true_iff in Hc.
    destruct Hc as [Hc | Hc]; [rewrite Hc; reflexivity|].
    rewrite includes_app, Hc. rewrite !orb_true_r. reflexivity.
  - intros slicedLayer i Hn. apply direct_slice_written; assumption.
Qed.

(** The theorem at a slice of the example layer. *)
Lemma isSlice_monotone_witness :
  isSlice (mkFolder "src/features/auth"
             [folder "src/features/auth/ui" []; file "src/features/auth/index.ts"]) []
    = true
  /\ isSlice (mkFolder "src/features/auth"
                [folder "src/features/auth/ui" []; file "src/features/auth/index.ts"])
       ([] ++ ["widgets"]) = true.
Proof.
  split; [reflexivity|].
  apply (isSlice_monotone
           (mkFolder "src/features/auth"
              [folder "src/features/auth/ui" []; file "src/features/auth/index.ts"])
           [] ["widgets"]).
  reflexivity.
Defined.

(** ** The places and keys of [getSlices] *)

Lemma overFolders_not_nil (visit : Folder -> list Write) (cs : list FileSystemNode)
    (i0 : nat) (w : string * Folder) :
  ~ In ([], w) (overFolders visit cs i0).
Proof.
  intro H. apply overFolders_head in H. destruct H as [i [p [E _]]].
  discriminate E.
Qed.

Lemma in_overFolders_cons (visit : Folder -> list Write) (cs : list FileSystemNode)
    (i : nat) (rest : list nat) (w : string * Folder) :
  In (i :: rest, w) (overFolders visit cs 0) <->
  exists c, nth_error cs i = Some (NFolder c) /\ In (rest, w) (visit c).
Proof.
  rewrite in_overFolders. split.
  - intros [i' [c [[p w'] [Hn [Hin E]]]]]. unfold under in E. simpl in E.
    inversion E. subst. exists c. split; assumption.
  - intros [c [Hn Hin]]. exists i, c, (rest, w). repeat split; assumption.
Qed.

Lemma traverseTrace_places (extras : list string) (folder0 : Folder) :
  forall pre pos,
    (exists w, In (pos, w) (traverseTrace extras folder0 pre))
    <-> firstSliceBelow extras folder0 pos = true.
Proof.
  induction folder0 as [folder0 IH] using Folder_children_ind.
  intros pre pos. rewrite traverseTrace_eq.
  destruct (isSlice folder0 extras) eqn:Es.
  - destruct pos as [|i rest]; simpl; rewrite Es; simpl.
    + split; [reflexivity|]. intros _. eexists. left. reflexivity.
    + split; [|discriminate]. intros [w [E | []]]. discriminate E.
  - destruct pos as [|i rest]; simpl; rewrite Es; simpl.
    + split; [|discriminate]. intros [w H]. exfalso.
      exact (overFolders_not_nil _ _ _ _ H).
    + split.
      * intros [w H]. apply in_overFolders_cons in H. destruct H as [c [Hn Hin]].
        rewrite Hn.
        apply (proj1 (IH c (nth_error_In _ _ Hn)
                        (Path.join [pre; Path.basename (folder_path folder0)]) rest)).
        exists w. exact Hin.
      * intro H. destruct (nth_error (children folder0) i) as [[f|c]|] eqn:Hn;
          try discriminate.
        apply (proj2 (IH c (nth_error_In _ _ Hn)
                        (Path.join [pre; Path.basename (folder_path folder0)]) rest))
          in H.
        destruct H as [w Hin]. exists w. apply in_overFolders_cons.
        exists c. split; [exact Hn | exact Hin].
Qed.

Lemma sliceTrace_places (slicedLayer : Folder) (extras : list string)
    (pos : list nat) :
  (exists key f, In (pos, (key, f)) (sliceTrace slicedLayer extras))
  <-> firstSliceIn extras slicedLayer pos = true.
Proof.
  unfold sliceTrace, firstSliceIn. destruct pos as [|i rest].
  - split; [|discriminate]. intros [key [f H]]. exfalso.
    exact (overFolders_not_nil _ _ _ _ H).
  - split.
    + intros [key [f H]]. apply in_overFolders_cons in H. destruct H as [c [Hn Hin]].
      rewrite Hn. apply (proj1 (traverseTrace_places extras c "" rest)).
      eexists. exact Hin.
    + intro H. destruct (nth_error (children slicedLayer) i) as [[f|c]|] eqn:Hn;
        try discriminate.
      apply (proj2 (traverseTrace_places extras c "" rest)) in H.
      destruct H as [[key f] Hin].
      exists key, f. apply in_overFolders_cons. exists c. split; [exact Hn | exact Hin].
Qed.

(** X8. [getSlices] writes from exactly the places of the first slices along
    the branches of the layer: a folder is written from a place if and only
    if it sits at that place and the place leads from a direct child folder,
    through folders that do not satisfy [isSlice], to a folder that does. *)
Theorem getSlices_places (slicedLayer : Folder) (extras : list string)
    (pos : list nat) (f : Folder) :
  (exists key, In (pos, (key, f)) (sliceTrace slicedLayer extras))
  <-> firstSliceIn extras slicedLayer pos = true
      /\ folderAt slicedLayer pos = Some f.
Proof.
  split.
  - intros [key H]. split.
    + apply sliceTrace_places. exists key, f. exact H.
    + exact (proj1 (sliceTrace_sound _ _ _ _ _ H)).
  - intros [H Hat]. apply sliceTrace_places in H. destruct H as [key [f' H]].
    pose proof (proj1 (sliceTrace_sound _ _ _ _ _ H)) as Hat'.
    rewrite Hat in Hat'. inversion Hat'. subst f'. exists key. exact H.
Qed.

(** The theorem at the nested slice of the example layer. *)
Lemma getSlices_places_witness :
  firstSliceIn [] featuresLayer [0; 0] = true
  /\ exists key,
       In ([0; 0], (key, mkFolder "src/features/cart/item"
                           [file "src/features/cart/item/ui.ts"]))
          (sliceTrace featuresLayer []).
Proof.
  split; [reflexivity|].
  apply (proj2 (getSlices_places featuresLayer [] [0; 0] _)).
  split; reflexivity.
Defined.

Lemma key_get {V : Type} (k : string) (o : obj V) :
  In k (keys o) -> exists v, get k o = Some v.
Proof.
  induction o as [|[k0 v0] o IH]; simpl; [intros []|].
  destruct (String.eqb k0 k) eqn:E.
  - intros _. exists v0. reflexivity.
  - intros [H | H]; [|exact (IH H)].
    subst k0. rewrite String.eqb_refl in E. discriminate E.
Qed.

Lemma get_key {V : Type} (k : string) (v : V) (o : obj V) :
  get k o = Some v -> In k (keys o).
Proof.
  intro H. apply get_in in H. unfold keys.
  apply in_map_iff. exists (k, v). split; [reflexivity | exact H].
Qed.

(** X9. The keys of the result of [getSlices] are exactly the keys written
    during the traversal, [__proto__] left out: a slice whose joined name is
    [__proto__] is never reported.  Under each of its keys the result holds
    the folder of the last write to that key. *)
Theorem getSlices_keys (slicedLayer : Folder) (extras : list string) (k : string) :
  (In k (keys (getSlices slicedLayer extras)) <->
   k <> "__proto__"
   /\ exists pos f, In (pos, (k, f)) (sliceTrace slicedLayer extras))
  /\ (k <> "__proto__" ->
      get k (getSlices slicedLayer extras)
      = option_map (fun w : Write => snd (snd w))
          (findLast (fun w : Write => String.eqb (fst (snd w)) k)
             (sliceTrace slicedLayer extras)))
  /\ get "__proto__" (getSlices slicedLayer extras) = None.
Proof.
  assert (Hlast : k <> "__proto__" ->
                  get k (getSlices slicedLayer extras)
                  = option_map (fun w : Write => snd (snd w))
                      (findLast (fun w : Write => String.eqb (fst (snd w)) k)
                         (sliceTrace slicedLayer extras))).
  { intro Hk. rewrite getSlices_replay, get_replay.
    destruct (String.eqb k "__proto__") eqn:E.
    { apply String.eqb_eq in E. contradiction. }
    destruct (findLast _ (sliceTrace slicedLayer extras)); reflexivity. }
  assert (Hproto : get "__proto__" (getSlices slicedLayer extras) = None).
  { rewrite getSlices_replay, get_replay. reflexivity. }
  split; [|split; [exact Hlast | exact Hproto]].
  split.
  - intro Hin. apply key_get in Hin. destruct Hin as [v Hv].
    split.
    + intro E. subst k. rewrite Hproto in Hv. discriminate Hv.
    + rewrite getSlices_replay in Hv. apply in_replay in Hv.
      destruct Hv as [[pos Hin] | Hv]; [|discriminate Hv].
      exists pos, v. exact Hin.
  - intros [Hk [pos [f Hin]]].
    destruct (find_hit (fun w : Write => String.eqb (fst (snd w)) k)
                (rev (sliceTrace slicedLayer extras)) (pos, (k, f)))
      as [y [Hfind _]].
    + apply in_rev in Hin. exact Hin.
    + apply String.eqb_refl.
    + apply (get_key k (snd (snd y))). rewrite (Hlast Hk).
      unfold findLast. rewrite Hfind. reflexivity.
Qed.

(** The theorem at a layer with a slice named [__proto__]: the slice is
    written and is not a key of the result. *)
Lemma getSlices_keys_witness :
  (exists pos f, In (pos, ("__proto__", f)) (sliceTrace protoLayer []))
  /\ ~ In "__proto__" (keys (getSlices protoLayer []))
  /\ In "auth" (keys (getSlices protoLayer [])).
Proof.
  split; [|split].
  - exists [0], (mkFolder "src/features/__proto__" [folder "src/features/__proto__/ui" []]).
    left. reflexivity.
  - intro H. apply (proj1 (getSlices_keys protoLayer [] "__proto__")) in H.
    destruct H as [H _]. apply H. reflexivity.
  - apply (proj1 (getSlices_keys protoLayer [] "auth")). split.
    + discriminate.
    + exists [1], (mkFolder "src/features/auth" [folder "src/features/auth/model" []]).
      right. left. reflexivity.
Defined.

(** ** Slice names *)

Lemma string_app_assoc (a b c : string) :
  ((a ++ b) ++ c)%string = (a ++ (b ++ c))%string.
Proof.
  induction a as [|x a IH]; simpl; [reflexivity|]. rewrite IH. reflexivity.
Qed.

Lemma joinWith_cons (sep0 a b : string) (r : list string) :
  joinWith sep0 (a :: b :: r) = (a ++ sep0 ++ joinWith sep0 (b :: r))%string.
Proof. reflexivity. Qed.

Lemma joinWith_snoc (l : list string) (b : string) :
  l <> [] -> joinWith "/" (l ++ [b]) = (joinWith "/" l ++ "/" ++ b)%string.
Proof.
  induction l as [|a l IH]; intro H; [contradiction|].
  destruct l as [|a' l]; [reflexivity|].
  change ((a :: a' :: l) ++ [b]) with (a :: a' :: (l ++ [b])).
  rewrite !joinWith_cons.
  change (a' :: l ++ [b]) with ((a' :: l) ++ [b]).
  rewrite IH by discriminate.
  rewrite !string_app_assoc. reflexivity.
Qed.

(** Names [path.join] keeps: ordinary and without separator. *)
Lemma goodNames_last (l : list string) (b : string) :
  Forall (fun n => ordinaryName n = true /\ hasChar Path.sep n = false) l ->
  ordinaryName b = true -> hasChar Path.sep b = false ->
  Forall (fun n => ordinaryName n = true /\ hasChar Path.sep n = false) (l ++ [b]).
Proof.
  intros Hl Hb Hs. apply Forall_app. split; [exact Hl|].
  constructor; [split; assumption | constructor].
Qed.

Lemma joinWith_String (a : string) (r : list string) :
  isEmpty a = false -> exists x s, joinWith "/" (a :: r) = String x s.
Proof.
  intro H. destruct a as [|x a]; [discriminate H|].
  destruct r as [|b r]; [exists x, a; reflexivity|].
  rewrite joinWith_cons. eexists. eexists. reflexivity.
Qed.

Lemma split_joinWith (l : list string) :
  l <> [] -> Forall (fun n => hasChar Path.sep n = false) l ->
  split Path.sep (joinWith "/" l) = l.
Proof.
  induction l as [|a l IH]; intros Hne H; [contradiction|].
  inversion H as [|? ? Ha Hl]; subst.
  destruct l as [|b l]; [apply split_no_sep; exact Ha|].
  rewrite joinWith_cons.
  change (a ++ "/" ++ joinWith "/" (b :: l))%string
    with (a ++ String Path.sep (joinWith "/" (b :: l)))%string.
  rewrite (split_app_sep _ _ _ Ha), IH; [reflexivity | discriminate | exact Hl].
Qed.

Lemma fold_normalizeStep_ordinary (allow : bool) (l stack : list string) :
  Forall (fun n => ordinaryName n = true) l ->
  fold_left (Path.normalizeStep allow) l stack = rev l ++ stack.
Proof.
  revert stack. induction l as [|a l IH]; intros stack H; [reflexivity|].
  inversion H as [|? ? Ha Hl]; subst. simpl.
  destruct (ordinaryName_inv a Ha) as [He [H1 H2]].
  unfold Path.normalizeStep at 2. rewrite He, H1, H2. simpl.
  rewrite (IH _ Hl), <- app_assoc. reflexivity.
Qed.

Lemma startsWith_joinWith (a : string) (r : list string) :
  isEmpty a = false -> hasChar Path.sep a = false ->
  startsWith Path.sep (joinWith "/" (a :: r)) = false.
Proof.
  intros He Hs. destruct a as [|x a]; [discriminate He|].
  simpl in Hs. apply orb_false_iff in Hs. destruct Hs as [Hx _].
  destruct r as [|b r]; [exact Hx|]. rewrite joinWith_cons. exact Hx.
Qed.

Lemma endsWith_joinWith (l : list string) :
  l <> [] ->
  Forall (fun n => ordinaryName n = true /\ hasChar Path.sep n = false) l ->
  endsWith Path.sep (joinWith "/" l) = false.
Proof.
  induction l as [|a l IH]; intros Hne H; [contradiction|].
  inversion H as [|? ? [Ha Hs] Hl]; subst.
  destruct l as [|b l]; [apply endsWith_hasChar; exact Hs|].
  rewrite joinWith_cons.
  change (a ++ "/" ++ joinWith "/" (b :: l))%string
    with (a ++ String Path.sep (joinWith "/" (b :: l)))%string.
  rewrite endsWith_app.
  inversion Hl as [|? ? [Hb _] _]; subst.
  destruct (joinWith_String b l (proj1 (ordinaryName_inv b Hb))) as [x [s E]].
  specialize (IH (fun E0 => nil_cons (eq_sym E0)) Hl).
  rewrite E in *. exact IH.
Qed.

Lemma normalize_ordinary_list (l : list string) :
  l <> [] ->
  Forall (fun n => ordinaryName n = true /\ hasChar Path.sep n = false) l ->
  Path.normalize (joinWith "/" l) = joinWith "/" l.
Proof.
  intros Hne H.
  assert (Hsep : Forall (fun n => hasChar Path.sep n = false) l).
  { revert H. apply Forall_impl. intros n [_ Hn]. exact Hn. }
  assert (Hord : Forall (fun n => ordinaryName n = true) l).
  { revert H. apply Forall_impl. intros n [Hn _]. exact Hn. }
  destruct l as [|a r]; [contradiction|].
  inversion H as [|? ? [Ha Hs] _]; subst.
  destruct (ordinaryName_inv a Ha) as [He _].
  destruct (joinWith_String a r He) as [x [s E]].
  assert (Hnon : isEmpty (joinWith "/" (a :: r)) = false) by (rewrite E; reflexivity).
  unfold Path.normalize, Path.normalizeString, Path.isAbsolute.
  rewrite Hnon, (startsWith_joinWith a r He Hs), (endsWith_joinWith _ Hne H).
  rewrite (split_joinWith _ Hne Hsep), (fold_normalizeStep_ordinary _ _ _ Hord).
  rewrite app_nil_r, rev_involutive. simpl negb. cbv iota.
  rewrite Hnon. reflexivity.
Qed.

Lemma join_ordinary_list (l : list string) (b : string) :
  Forall (fun n => ordinaryName n = true /\ hasChar Path.sep n = false) l ->
  ordinaryName b = true -> hasChar Path.sep b = false ->
  Path.join [joinWith "/" l; b] = joinWith "/" (l ++ [b]).
Proof.
  intros Hl Hb Hs. destruct (ordinaryName_inv b Hb) as [Heb _].
  destruct l as [|a r].
  - unfold Path.join. simpl. rewrite Heb. simpl.
    apply normalize_ordinary; assumption.
  - inversion Hl as [|? ? [Ha _] _]; subst.
    destruct (joinWith_String a r (proj1 (ordinaryName_inv a Ha))) as [x [s E]].
    unfold Path.join. simpl filter. rewrite E at 1. simpl isEmpty. rewrite Heb.
    simpl negb. cbv iota.
    rewrite <- (normalize_ordinary_list ((a :: r) ++ [b]))
      by (try discriminate; apply goodNames_last; assumption).
    rewrite joinWith_snoc by discriminate. reflexivity.
Qed.

Lemma namesAt_no_sep (pos : list nat) :
  forall d, Forall (fun n => hasChar Path.sep n = false) (namesAt d pos).
Proof.
  induction pos as [|i rest IH]; intro d; simpl; [constructor|].
  destruct (nth_error (children d) i) as [[f|c]|]; try constructor.
  - apply basename_no_sep.
  - apply IH.
Qed.

Lemma traverseTrace_keys (extras : list string) (folder0 : Folder) :
  forall names pos key f,
    Forall (fun n => ordinaryName n = true /\ hasChar Path.sep n = false) names ->
    In (pos, (key, f)) (traverseTrace extras folder0 (joinWith "/" names)) ->
    ordinaryName (Path.basename (folder_path folder0)) = true ->
    forallb ordinaryName (namesAt folder0 pos) = true ->
    key = joinWith "/"
            (names ++ Path.basename (folder_path folder0) :: namesAt folder0 pos).
Proof.
  induction folder0 as [folder0 IH] using Folder_children_ind.
  intros names pos key f Hn Hin Hb Hpos.
  rewrite traverseTrace_eq in Hin.
  rewrite (join_ordinary_list names _ Hn Hb (basename_no_sep _)) in Hin.
  destruct (isSlice folder0 extras).
  - destruct Hin as [E | []]. inversion E. subst. reflexivity.
  - destruct pos as [|i rest].
    + exfalso. exact (overFolders_not_nil _ _ _ _ Hin).
    + apply in_overFolders_cons in Hin. destruct Hin as [c [Hc Hin]].
      simpl in Hpos |- *. rewrite Hc in Hpos |- *. simpl in Hpos.
      apply andb_true_iff in Hpos. destruct Hpos as [Hbc Hrest].
      rewrite (IH c (nth_error_In _ _ Hc) _ _ _ _
                 (goodNames_last _ _ Hn Hb (basename_no_sep _)) Hin Hbc Hrest).
      rewrite <- app_assoc. reflexivity.
Qed.

Lemma sliceTrace_keys (slicedLayer : Folder) (extras : list string)
    (pos : list nat) (key : string) (f : Folder) :
  In (pos, (key, f)) (sliceTrace slicedLayer extras) ->
  forallb ordinaryName (namesAt slicedLayer pos) = true ->
  key = joinWith "/" (namesAt slicedLayer pos).
Proof.
  intros Hin Hpos. unfold sliceTrace in Hin. destruct pos as [|i rest].
  { exfalso. exact (overFolders_not_nil _ _ _ _ Hin). }
  apply in_overFolders_cons in Hin. destruct Hin as [c [Hc Hin]].
  simpl in Hpos |- *. rewrite Hc in Hpos |- *. simpl in Hpos.
  apply andb_true_iff in Hpos. destruct Hpos as [Hbc Hrest].
  change "" with (joinWith "/" []) in Hin.
  apply (traverseTrace_keys extras c [] rest key f (Forall_nil _) Hin Hbc Hrest).
Qed.

Lemma namesAt_length (pos : list nat) :
  forall d f, folderAt d pos = Some f ->
              List.length (namesAt d pos) = List.length pos.
Proof.
  induction pos as [|i rest IH]; intros d f H; [reflexivity|].
  simpl in *. destruct (nth_error (children d) i) as [[f0|c]|]; try discriminate.
  simpl. f_equal. exact (IH c f H).
Qed.

(** X10. A slice name is the path of base names from the layer to the slice
    folder joined by [/]: when the folders along the place of a write all
    have ordinary base names (not empty, [.] or [..]), the key of the write
    is these base names, one for each step of the place and in order,
    joined by [/]. *)
Theorem getSlices_key_is_joined_names (slicedLayer : Folder) (extras : list string)
    (pos : list nat) (key : string) (f : Folder) :
  In (pos, (key, f)) (sliceTrace slicedLayer extras) ->
  forallb ordinaryName (namesAt slicedLayer pos) = true ->
  key = joinWith "/" (namesAt slicedLayer pos)
  /\ List.length (namesAt slicedLayer pos) = List.length pos.
Proof.
  intros Hin Hpos. split.
  - exact (sliceTrace_keys _ _ _ _ _ Hin Hpos).
  - exact (namesAt_length _ _ _ (proj1 (sliceTrace_sound _ _ _ _ _ Hin))).
Qed.

(** The theorem at the nested slice of the example layer. *)
Lemma getSlices_key_is_joined_names_witness :
  In ([0; 0], ("cart/item",
               mkFolder "src/features/cart/item" [file "src/features/cart/item/ui.ts"]))
     (sliceTrace featuresLayer [])
  /\ "cart/item" = joinWith "/" (namesAt featuresLayer [0; 0]).
Proof.
  assert (Hin : In ([0; 0], ("cart/item",
                             mkFolder "src/features/cart/item"
                               [file "src/features/cart/item/ui.ts"]))
                   (sliceTrace featuresLayer [])).
  { left. reflexivity. }
  split; [exact Hin|].
  apply (getSlices_key_is_joined_names featuresLayer [] [0; 0] _ _ Hin).
  reflexivity.
Defined.

(** ** The slices of all layers *)

Lemma withoutLayerName_withLayerName (slice : Folder) (name : string) :
  withoutLayerName (withLayerName slice name) = slice.
Proof. destruct slice; reflexivity. Qed.

Lemma getSlices_value_isSlice (layer : Folder) (extras : list string)
    (k : string) (slice : Folder) :
  get k (getSlices layer extras) = Some slice -> isSlice slice extras = true.
Proof.
  intro H. rewrite getSlices_replay in H. apply in_replay in H.
  destruct H as [[pos H] | H]; [|discriminate H].
  exact (proj2 (sliceTrace_sound _ _ _ _ _ H)).
Qed.

Lemma merged_layers_origin (extras : list string) (k : string)
    (layers : list Folder) :
  forall acc lf,
    get k
      (fold_left
         (fun slices layer =>
            spread slices
              (fromEntries
                 (map
                    (fun entry =>
                       (fst entry,
                        withLayerName (snd entry) (Path.basename (folder_path layer))))
                    (entries (getSlices layer extras)))))
         layers acc) = Some lf ->
    get k acc = Some lf
    \/ exists layer slice,
         In layer layers /\ get k (getSlices layer extras) = Some slice
         /\ lf = withLayerName slice (Path.basename (folder_path layer)).
Proof.
  induction layers as [|layer layers IH]; intros acc lf H; [left; exact H|].
  simpl in H. apply IH in H. destruct H as [H | [l [s [Hin [Hg E]]]]].
  - rewrite get_merge_layer in H.
    destruct (get k (getSlices layer extras)) as [slice|] eqn:Eg.
    + right. exists layer, slice. inversion H.
      split; [left; reflexivity|]. split; [exact Eg | reflexivity].
    + left. exact H.
  - right. exists l, s. split; [right; exact Hin|]. split; assumption.
Qed.

Lemma merged_layers_has (extras : list string) (k : string) (layers : list Folder) :
  forall acc,
    (exists lf, get k acc = Some lf)
    \/ (exists layer slice, In layer layers
                            /\ get k (getSlices layer extras) = Some slice) ->
    exists lf,
      get k
        (fold_left
           (fun slices layer =>
              spread slices
                (fromEntries
                   (map
                      (fun entry =>
                         (fst entry,
                          withLayerName (snd entry) (Path.basename (folder_path layer))))
                      (entries (getSlices layer extras)))))
           layers acc) = Some lf.
Proof.
  induction layers as [|layer layers IH]; intros acc H.
  - destruct H as [H | [l [s [[] _]]]]. exact H.
  - simpl. apply IH. destruct H as [[lf H] | [l [s [[E | Hin] Hg]]]].
    + left. rewrite get_merge_layer.
      destruct (get k (getSlices layer extras)); eexists; [reflexivity | exact H].
    + subst l. left. rewrite get_merge_layer, Hg. eexists. reflexivity.
    + right. exists l, s. split; assumption.
Qed.

Lemma slicedLayersOf_in (fsdRoot layer : Folder) :
  In layer (slicedLayersOf fsdRoot) ->
  In (NFolder layer) (children fsdRoot)
  /\ In (Path.basename (folder_path layer)) layerSequence
  /\ isSliced (inl layer) = true.
Proof.
  unfold slicedLayersOf. intro H. apply filter_In in H. destruct H as [H Hs].
  apply in_foldersOf in H. apply values_getLayers in H. destruct H as [Hin Hl].
  unfold isLayerFolder in Hl. apply andb_true_iff in Hl. destruct Hl as [_ Hl].
  split; [exact Hin|]. split; [|exact Hs]. apply includes_In. exact Hl.
Qed.

(** X11. Every slice [getAllSlices] returns comes from a direct child folder
    of the root that is a sliced layer: its [layerName] is the base name of
    that layer, is one of the six layer names and is sliced, and without the
    layer name it is the folder [getSlices] holds under the same name in
    that layer, which satisfies [isSlice] with the same additional names. *)
Theorem getAllSlices_entries (fsdRoot : Folder) (extras : list string)
    (k : string) (lf : LayeredFolder) :
  get k (getAllSlices fsdRoot extras) = Some lf ->
  exists layer,
    In (NFolder layer) (children fsdRoot)
    /\ layerName lf = Path.basename (folder_path layer)
    /\ In (layerName lf) layerSequence
    /\ isSliced (inr (layerName lf)) = true
    /\ get k (getSlices layer extras) = Some (withoutLayerName lf)
    /\ isSlice (withoutLayerName lf) extras = true.
Proof.
  intro H. unfold getAllSlices in H. fold (slicedLayersOf fsdRoot) in H.
  apply merged_layers_origin in H.
  destruct H as [H | [layer [slice [Hin [Hg E]]]]]; [discriminate H|].
  apply slicedLayersOf_in in Hin. destruct Hin as [Hc [Hl Hs]].
  exists layer. subst lf. rewrite withoutLayerName_withLayerName. simpl.
  split; [exact Hc|]. split; [reflexivity|]. split; [exact Hl|]. split.
  - unfold isSliced in *. rewrite basename_idempotent. exact Hs.
  - split; [exact Hg | exact (getSlices_value_isSlice _ _ _ _ Hg)].
Qed.

(** The theorem at the slice [auth] of a small root. *)
Lemma getAllSlices_entries_witness :
  get "auth" (getAllSlices smallRoot [])
    = Some (mkLayered "src/features/auth"
              [folder "src/features/auth/ui" []; file "src/features/auth/index.ts"]
              "features")
  /\ exists layer,
       In (NFolder layer) (children smallRoot)
       /\ "features" = Path.basename (folder_path layer).
Proof.
  split; [reflexivity|].
  destruct (getAllSlices_entries smallRoot [] "auth"
              (mkLayered "src/features/auth"
                 [folder "src/features/auth/ui" []; file "src/features/auth/index.ts"]
                 "features") eq_refl) as [layer [H1 [H2 _]]].
  exists layer. split; [exact H1 | exact H2].
Defined.

Lemma Earlier_getSlices_eq (slicedLayer : Folder) (extras : list string) :
  forallb plainName extras = true ->
  Earlier.getSlices slicedLayer extras = getSlices slicedLayer extras.
Proof.
  intro Hex. unfold Earlier.getSlices, getSlices.
  apply (fold_left_folders_ext
           (fun d acc => Earlier.traverse extras d "" acc)
           (fun d acc => traverse extras d "" acc)).
  intros c _ s'. apply traverse_revisions. exact Hex.
Qed.

(** X12. The current [getAllSlices] is the earlier one with layer names
    added: for additional segment names that are plain (not empty, not [..]
    and not starting with their only dot), dropping [layerName] from what
    the current revision holds under a slice name gives what the earlier
    revision holds under it. *)
Theorem getAllSlices_revisions (fsdRoot : Folder) (extras : list string) (k : string) :
  forallb plainName extras = true ->
  get k (EarlierRest.getAllSlices fsdRoot extras)
  = option_map withoutLayerName (get k (getAllSlices fsdRoot extras)).
Proof.
  intro Hex. unfold EarlierRest.getAllSlices, getAllSlices.
  change (filter (fun layer => EarlierRest.isSliced (inl layer))
            (foldersOf (values (EarlierRest.getLayers fsdRoot))))
    with (slicedLayersOf fsdRoot).
  fold (slicedLayersOf fsdRoot).
  assert (Hacc : get k (@nil (string * Folder))
                 = option_map withoutLayerName (get k (@nil (string * LayeredFolder))))
    by reflexivity.
  revert Hacc.
  generalize (@nil (string * Folder)) as accE.
  generalize (@nil (string * LayeredFolder)) as accL.
  induction (slicedLayersOf fsdRoot) as [|layer layers IH]; intros accL accE Hacc;
    [exact Hacc|].
  simpl. apply IH.
  rewrite get_merge_layer, (Earlier_getSlices_eq _ _ Hex).
  rewrite get_spread by apply NoDup_keys_getSlices.
  destruct (get k (getSlices layer extras)) as [slice|]; [|exact Hacc].
  simpl. rewrite withoutLayerName_withLayerName. reflexivity.
Qed.

(** The theorem at a small root with one additional name. *)
Lemma getAllSlices_revisions_witness :
  forallb plainName ["widgets"] = true
  /\ get "auth" (EarlierRest.getAllSlices smallRoot ["widgets"])
     = option_map withoutLayerName (get "auth" (getAllSlices smallRoot ["widgets"])).
Proof.
  split; [reflexivity|].
  apply (getAllSlices_revisions smallRoot ["widgets"] "auth"). reflexivity.
Defined.

(** ** The segments of all layers *)

Lemma in_get {V : Type} (k : string) (v : V) (o : obj V) :
  NoDup (keys o) -> In (k, v) o -> get k o = Some v.
Proof.
  induction o as [|[k0 v0] o IH]; simpl; [intros _ []|].
  intros Hnd Hin. inversion Hnd as [|? ? Hn Hd]; subst.
  destruct Hin as [E | Hin].
  - inversion E. subst. rewrite String.eqb_refl. reflexivity.
  - destruct (String.eqb k0 k) eqn:E.
    + apply String.eqb_eq in E. subst k0. exfalso. apply Hn.
      unfold keys. apply in_map_iff. exists (k, v). split; [reflexivity | exact Hin].
    + exact (IH Hd Hin).
Qed.

Lemma getAllSegments_sound (fsdRoot : Folder) (info : SegmentInfo) :
  In info (getAllSegments fsdRoot) -> reportedSegment fsdRoot info.
Proof.
  unfold getAllSegments. intro H. apply in_flat_map in H.
  destruct H as [[name v] [Hentry H]]. simpl in H.
  destruct v as [f|layer]; [destruct H|].
  exists layer.
  destruct (isSliced (inl layer)) eqn:Es.
  - apply in_flat_map in H. destruct H as [[sname slice] [Hsl H]].
    apply in_map_iff in H. destruct H as [[gname seg] [E Hsg]].
    subst info. simpl in *.
    split; [exact (in_get _ _ _ (NoDup_keys_fromEntries _) Hentry)|].
    split; [reflexivity|]. exists slice.
    split; [exact (in_get _ _ _ (NoDup_keys_getSlices _ _) Hsl)|].
    exact (in_get _ _ _ (NoDup_keys_fromEntries _) Hsg).
  - apply in_map_iff in H. destruct H as [[gname seg] [E Hsg]].
    subst info. simpl in *.
    split; [exact (in_get _ _ _ (NoDup_keys_fromEntries _) Hentry)|].
    split; [reflexivity|].
    exact (in_get _ _ _ (NoDup_keys_fromEntries _) Hsg).
Qed.

(** X13. [getAllSegments] is the flattening of [getLayers], [getSlices] and
    [getSegments]: a record is reported if and only if [getLayers] holds a
    layer under its layer name and either the layer is unsliced, the record
    has no slice name and the layer holds the segment under the segment
    name, or the layer is sliced, [getSlices] called without additional
    segment names holds a slice under the slice name and that slice holds
    the segment under the segment name. *)
Theorem getAllSegments_spec (fsdRoot : Folder) (info : SegmentInfo) :
  In info (getAllSegments fsdRoot) <-> reportedSegment fsdRoot info.
Proof.
  split; [apply getAllSegments_sound|].
  intros [layer [Hl H]]. unfold getAllSegments. apply in_flat_map.
  exists (si_layerName info, NFolder layer). split; [exact (get_in _ _ _ Hl)|].
  destruct info as [seg gname sname lname]. simpl in *.
  destruct sname as [s|].
  - destruct H as [Es [slice [Hs Hg]]]. rewrite Es. apply in_flat_map.
    exists (s, slice). split; [exact (get_in _ _ _ Hs)|].
    apply in_map_iff. exists (gname, seg). split; [reflexivity|].
    exact (get_in _ _ _ Hg).
  - destruct H as [Es Hg]. rewrite Es.
    apply in_map_iff. exists (gname, seg). split; [reflexivity|].
    exact (get_in _ _ _ Hg).
Qed.

(** The theorem at the segment [ui] of the slice [auth] of a small root. *)
Lemma getAllSegments_spec_witness :
  reportedSegment smallRoot
    (mkSegmentInfo (folder "src/features/auth/ui" []) "ui" (Some "auth") "features")
  /\ In (mkSegmentInfo (folder "src/features/auth/ui" []) "ui" (Some "auth") "features")
        (getAllSegments smallRoot).
Proof.
  assert (H : reportedSegment smallRoot
                (mkSegmentInfo (folder "src/features/auth/ui" []) "ui" (Some "auth")
                   "features")).
  { exists featuresLayer. split; [reflexivity|]. split; [reflexivity|].
    exists (mkFolder "src/features/auth"
              [folder "src/features/auth/ui" []; file "src/features/auth/index.ts"]).
    split; reflexivity. }
  split; [exact H|].
  apply (proj2 (getAllSegments_spec smallRoot _)). exact H.
Defined.

Lemma getSegments_entry (d : Folder) (k : string) (v : FileSystemNode) :
  get k (getSegments d) = Some v ->
  In v (children d) /\ isIndex v = false /\ k = segmentKey v.
Proof.
  intro H. apply get_in in H. unfold getSegments in H.
  apply (in_fromEntries_keyed (fun c => Path.name (Path.parse (node_path c)))) in H.
  destruct H as [H1 [H2 H3]]. apply negb_true_iff in H2.
  repeat split; assumption.
Qed.

(** X14. Every record of [getAllSegments] has a segment that is not an index
    file, the segment name [parse(path).name] of that segment and a layer
    name among the six; its slice name is [null] exactly when the layer name
    is [shared] or [app]; and a slice name it carries is a key of
    [getAllSlices] called without additional segment names. *)
Theorem getAllSegments_records (fsdRoot : Folder) (info : SegmentInfo) :
  In info (getAllSegments fsdRoot) ->
  isIndex (segment info) = false
  /\ segmentName info = segmentKey (segment info)
  /\ In (si_layerName info) layerSequence
  /\ (sliceName info = None <->
      si_layerName info = "shared" \/ si_layerName info = "app")
  /\ (forall s, sliceName info = Some s ->
                exists lf, get s (getAllSlices fsdRoot []) = Some lf).
Proof.
  intro H. apply getAllSegments_sound in H. destruct H as [layer [Hl H]].
  pose proof (get_in _ _ _ Hl) as Hentry. apply getLayers_entry in Hentry.
  destruct Hentry as [_ [Hlf Hk]]. simpl in Hk.
  assert (Hseq : In (si_layerName info) layerSequence).
  { unfold isLayerFolder in Hlf. apply andb_true_iff in Hlf. destruct Hlf as [_ Hlf].
    rewrite Hk. apply includes_In. exact Hlf. }
  assert (Hun : isSliced (inl layer) = false <->
                si_layerName info = "shared" \/ si_layerName info = "app").
  { unfold isSliced. simpl folder_path. rewrite <- Hk.
    rewrite negb_false_iff, includes_In. simpl. split.
    - intros [E1 | [E1 | []]]; [left | right]; symmetry; exact E1.
    - intros [E1 | E1]; [left | right; left]; symmetry; exact E1. }
  destruct (sliceName info) as [s|] eqn:Es.
  - destruct H as [Hs [slice [Hsl Hg]]].
    apply getSegments_entry in Hg. destruct Hg as [_ [Hi Hn]].
    split; [exact Hi|]. split; [exact Hn|]. split; [exact Hseq|]. split.
    + split; [discriminate|]. intro Hname. apply Hun in Hname.
      rewrite Hname in Hs. discriminate Hs.
    + intros s' E. inversion E. subst s'. unfold getAllSlices.
      apply merged_layers_has. right. exists layer, slice.
      split; [|exact Hsl].
      apply filter_In. split; [|exact Hs]. apply in_foldersOf.
      unfold values. apply in_map_iff.
      exists (si_layerName info, NFolder layer).
      split; [reflexivity | exact (get_in _ _ _ Hl)].
  - destruct H as [Hs Hg].
    apply getSegments_entry in Hg. destruct Hg as [_ [Hi Hn]].
    split; [exact Hi|]. split; [exact Hn|]. split; [exact Hseq|]. split.
    + split; [intros _; apply Hun; exact Hs | reflexivity].
    + intros s E. discriminate E.
Qed.

(** The theorem at the segment [ui] of the unsliced layer of a small
    root. *)
Lemma getAllSegments_records_witness :
  In (mkSegmentInfo (NFolder uiSegment) "ui" None "shared") (getAllSegments smallRoot)
  /\ isIndex (NFolder uiSegment) = false
  /\ In "shared" layerSequence.
Proof.
  assert (H : In (mkSegmentInfo (NFolder uiSegment) "ui" None "shared")
                (getAllSegments smallRoot)).
  { right. right. left. reflexivity. }
  split; [exact H|].
  destruct (getAllSegments_records smallRoot _ H) as [H1 [_ [H3 _]]].
  split; [exact H1 | exact H3].
Defined.

(** ** Trees with distinct sibling names *)

Lemma distinct_NoDup (names : list string) :
  distinct names = true -> NoDup names.
Proof.
  induction names as [|n rest IH]; simpl; intro H; [constructor|].
  apply andb_true_iff in H. destruct H as [Hn Hr].
  constructor; [|exact (IH Hr)].
  intro Hin. apply includes_In in Hin. rewrite Hin in Hn. discriminate Hn.
Qed.

Lemma wellNamed_inv (d : Folder) :
  wellNamed d = true ->
  Forall (fun n => ordinaryName n = true)
    (map (fun c => Path.basename (folder_path c)) (foldersOf (children d)))
  /\ NoDup (map (fun c => Path.basename (folder_path c)) (foldersOf (children d)))
  /\ forall c, In (NFolder c) (children d) -> wellNamed c = true.
Proof.
  destruct d as [p cs]. simpl. intro H.
  apply andb_true_iff in H. destruct H as [H H3].
  apply andb_true_iff in H. destruct H as [H1 H2].
  split; [|split].
  - apply Forall_forall. rewrite forallb_forall in H1. exact H1.
  - apply distinct_NoDup. exact H2.
  - intros c Hin. rewrite forallb_forall in H3. exact (H3 _ Hin).
Qed.

Lemma folder_index_inj (key : Folder -> string) (cs : list FileSystemNode) :
  NoDup (map key (foldersOf cs)) ->
  forall i j a b,
    nth_error cs i = Some (NFolder a) -> nth_error cs j = Some (NFolder b) ->
    key a = key b -> i = j.
Proof.
  induction cs as [|n cs IH]; intros Hnd i j a b Hi Hj E.
  - destruct i; discriminate Hi.
  - assert (Htail : NoDup (map key (foldersOf cs))).
    { destruct n as [f|c]; [exact Hnd|]. inversion Hnd. assumption. }
    assert (Hhead : forall c x, n = NFolder c -> In (NFolder x) cs ->
                                key c <> key x).
    { intros c x En Hx Ek. subst n. inversion Hnd as [|? ? Hn _]; subst.
      apply Hn. rewrite Ek. apply in_map. apply in_foldersOf. exact Hx. }
    destruct i as [|i]; destruct j as [|j]; simpl in *.
    + reflexivity.
    + inversion Hi. exfalso.
      exact (Hhead a b H0 (nth_error_In _ _ Hj) E).
    + inversion Hj. exfalso.
      exact (Hhead b a H0 (nth_error_In _ _ Hi) (eq_sym E)).
    + f_equal. exact (IH Htail i j a b Hi Hj E).
Qed.

Lemma wellNamed_ordinary_along (pos : list nat) :
  forall d f,
    wellNamed d = true -> folderAt d pos = Some f ->
    forallb ordinaryName (namesAt d pos) = true.
Proof.
  induction pos as [|i rest IH]; intros d f Hw Hat; [reflexivity|].
  simpl in *. destruct (nth_error (children d) i) as [[f0|c]|] eqn:Hn;
    try discriminate.
  destruct (wellNamed_inv d Hw) as [Hord [_ Hsub]].
  pose proof (nth_error_In _ _ Hn) as Hin.
  simpl. rewrite (IH c f (Hsub c Hin) Hat), andb_true_r.
  rewrite Forall_forall in Hord. apply Hord.
  apply (in_map (fun c0 => Path.basename (folder_path c0))).
  apply in_foldersOf. exact Hin.
Qed.

Lemma namesAt_inj (p : list nat) :
  forall d q a b,
    wellNamed d = true -> folderAt d p = Some a -> folderAt d q = Some b ->
    namesAt d p = namesAt d q -> p = q.
Proof.
  induction p as [|i p IH]; intros d q a b Hw Hp Hq E.
  - destruct q as [|j q]; [reflexivity|]. simpl in *.
    destruct (nth_error (children d) j) as [[f0|c]|]; discriminate.
  - destruct q as [|j q]; simpl in *.
    + destruct (nth_error (children d) i) as [[f0|c]|]; discriminate.
    + destruct (nth_error (children d) i) as [[f0|ci]|] eqn:Hi; try discriminate.
      destruct (nth_error (children d) j) as [[f1|cj]|] eqn:Hj; try discriminate.
      inversion E as [[E1 E2]].
      destruct (wellNamed_inv d Hw) as [_ [Hnd Hsub]].
      assert (i = j).
      { exact (folder_index_inj (fun c => Path.basename (folder_path c))
                 (children d) Hnd i j ci cj Hi Hj E1). }
      subst j. rewrite Hi in Hj. inversion Hj. subst cj.
      f_equal. exact (IH ci q a b (Hsub ci (nth_error_In _ _ Hi)) Hp Hq E2).
Qed.

Lemma joinWith_inj (l1 l2 : list string) :
  l1 <> [] -> l2 <> [] ->
  Forall (fun n => hasChar Path.sep n = false) l1 ->
  Forall (fun n => hasChar Path.sep n = false) l2 ->
  joinWith "/" l1 = joinWith "/" l2 -> l1 = l2.
Proof.
  intros H1 H2 F1 F2 E.
  rewrite <- (split_joinWith l1 H1 F1), E. apply split_joinWith; assumption.
Qed.

Lemma namesAt_not_nil (d f : Folder) (pos : list nat) :
  pos <> [] -> folderAt d pos = Some f -> namesAt d pos <> [].
Proof.
  intros Hne Hat E. apply (f_equal (@List.length string)) in E.
  rewrite (namesAt_length _ _ _ Hat) in E.
  destruct pos; [contradiction | discriminate E].
Qed.

(** X15. In a layer where the folders among the children of every folder
    have ordinary base names that differ from one another, [getSlices]
    reports every first slice along a branch under the base names from the
    layer to it joined by [/]: nothing overwrites it.  (A folder named
    [__proto__] directly in the layer is the one exception.) *)
Theorem getSlices_reports_first_slices (slicedLayer : Folder) (extras : list string)
    (pos : list nat) (f : Folder) :
  wellNamed slicedLayer = true ->
  firstSliceIn extras slicedLayer pos = true ->
  folderAt slicedLayer pos = Some f ->
  joinWith "/" (namesAt slicedLayer pos) <> "__proto__" ->
  get (joinWith "/" (namesAt slicedLayer pos)) (getSlices slicedLayer extras) = Some f.
Proof.
  intros Hw Hfirst Hat Hproto.
  assert (Hpos : pos <> []) by (intro E; subst pos; discriminate Hfirst).
  apply sliceTrace_places in Hfirst. destruct Hfirst as [key [f' Hin]].
  pose proof (sliceTrace_keys _ _ _ _ _ Hin (wellNamed_ordinary_along _ _ _ Hw Hat))
    as Ekey.
  subst key. rewrite getSlices_replay, get_replay.
  destruct (String.eqb (joinWith "/" (namesAt slicedLayer pos)) "__proto__") eqn:E.
  { apply String.eqb_eq in E. contradiction. }
  unfold findLast.
  destruct (find_hit
              (fun w : Write =>
                 String.eqb (fst (snd w)) (joinWith "/" (namesAt slicedLayer pos)))
              (rev (sliceTrace slicedLayer extras))
              (pos, (joinWith "/" (namesAt slicedLayer pos), f')))
    as [[pos' [key' f'']] [Hfind Hk]].
  - apply in_rev in Hin. exact Hin.
  - apply String.eqb_refl.
  - rewrite Hfind. simpl in *. apply String.eqb_eq in Hk.
    apply find_some in Hfind. destruct Hfind as [Hin' _]. apply in_rev in Hin'.
    destruct (sliceTrace_sound _ _ _ _ _ Hin') as [Hat' _].
    pose proof (sliceTrace_keys _ _ _ _ _ Hin'
                  (wellNamed_ordinary_along _ _ _ Hw Hat')) as Ekey'.
    assert (Hpos' : pos' <> []).
    { intro E0. subst pos'. unfold sliceTrace in Hin'.
      exact (overFolders_not_nil _ _ _ _ Hin'). }
    assert (En : namesAt slicedLayer pos' = namesAt slicedLayer pos).
    { apply joinWith_inj.
      - exact (namesAt_not_nil _ _ _ Hpos' Hat').
      - exact (namesAt_not_nil _ _ _ Hpos Hat).
      - apply namesAt_no_sep.
      - apply namesAt_no_sep.
      - rewrite <- Ekey'. exact Hk. }
    pose proof (namesAt_inj _ _ _ _ _ Hw Hat' Hat En) as Ep. subst pos'.
    rewrite Hat in Hat'. inversion Hat'. reflexivity.
Qed.

(** The theorem at the nested slice of the example layer. *)
Lemma getSlices_reports_first_slices_witness :
  wellNamed featuresLayer = true
  /\ get "cart/item" (getSlices featuresLayer [])
     = Some (mkFolder "src/features/cart/item" [file "src/features/cart/item/ui.ts"]).
Proof.
  split; [reflexivity|].
  apply (getSlices_reports_first_slices featuresLayer [] [0; 0]
           (mkFolder "src/features/cart/item" [file "src/features/cart/item/ui.ts"]));
    try reflexivity.
  vm_compute. discriminate.
Defined.

(** ** Cross-import files of a normalized layer path *)

Lemma plainSegment_inv (n : string) :
  plainSegment n = true -> ordinaryName n = true /\ hasChar Path.sep n = false.
Proof.
  unfold plainSegment. intro H. apply andb_true_iff in H. destruct H as [H1 H2].
  apply negb_true_iff in H2. split; assumption.
Qed.

Lemma plainSegments_good (l : list string) :
  forallb plainSegment l = true ->
  Forall (fun n => ordinaryName n = true /\ hasChar Path.sep n = false) l.
Proof.
  intro H. apply Forall_forall. intros n Hn. rewrite forallb_forall in H.
  exact (plainSegment_inv n (H n Hn)).
Qed.

Lemma good_no_sep (l : list string) :
  Forall (fun n => ordinaryName n = true /\ hasChar Path.sep n = false) l ->
  Forall (fun n => hasChar Path.sep n = false) l.
Proof. apply Forall_impl. intros n [_ H]. exact H. Qed.

Lemma parse_joined (segs : list string) (b : string) :
  segs <> [] ->
  Forall (fun n => ordinaryName n = true /\ hasChar Path.sep n = false) segs ->
  isEmpty b = false -> hasChar Path.sep b = false ->
  Path.parse (joinWith "/" (segs ++ [b]))
  = Path.mkParsed "" (joinWith "/" segs) b (Path.extOf b) (Path.nameOf b).
Proof.
  intros Hne Hgood Hb Hs.
  destruct segs as [|a r]; [contradiction|].
  inversion Hgood as [|? ? [Ha Has] _]; subst.
  destruct (ordinaryName_inv a Ha) as [Hea _].
  assert (Hsplit : split Path.sep (joinWith "/" ((a :: r) ++ [b])) = (a :: r) ++ [b]).
  { apply split_joinWith; [discriminate|].
    apply Forall_app. split; [exact (good_no_sep _ Hgood)|].
    constructor; [exact Hs | constructor]. }
  unfold Path.parse, Path.trimmedRev, Path.isAbsolute.
  rewrite Hsplit, rev_unit.
  change ((a :: r) ++ [b]) with (a :: (r ++ [b])).
  rewrite (startsWith_joinWith a (r ++ [b]) Hea Has).
  change (Path.dropWhile isEmpty (b :: rev (a :: r)))
    with (if isEmpty b then Path.dropWhile isEmpty (rev (a :: r))
          else b :: rev (a :: r)).
  rewrite Hb. cbv iota. rewrite rev_involutive.
  destruct a as [|x a]; [discriminate Hea|]. reflexivity.
Qed.

Lemma nameOf_with_extension (n ext : string) :
  ordinaryName n = true -> hasChar Path.dot ext = false ->
  Path.nameOf (n ++ "." ++ ext) = n.
Proof.
  intros Hn Hext. destruct (ordinaryName_inv n Hn) as [He [H1 _]].
  change (n ++ "." ++ ext)%string with (n ++ String Path.dot ext)%string.
  unfold Path.nameOf, Path.extStart, lastIndexOf.
  rewrite (lastIndexOfFrom_app _ _ _ 0 Hext). simpl Nat.add.
  assert (Hlen : Nat.eqb (String.length n) 0 = false).
  { destruct n; [discriminate He | reflexivity]. }
  assert (Hdd : String.eqb (n ++ String Path.dot ext) ".." = false).
  { destruct (String.eqb (n ++ String Path.dot ext) "..") eqn:E; [|reflexivity].
    apply String.eqb_eq in E. exfalso.
    destruct n as [|x [|y n]]; [discriminate He| |].
    - simpl in E. inversion E. subst x. discriminate H1.
    - simpl in E. inversion E. destruct n; discriminate. }
  rewrite Hlen, Hdd. simpl. unfold sliceTo. apply substring_prefix.
Qed.

Lemma join_three (a b c : string) :
  isEmpty a = false -> isEmpty b = false -> isEmpty c = false ->
  Path.join [a; b; c] = Path.normalize (a ++ "/" ++ b ++ "/" ++ c).
Proof.
  intros Ha Hb Hc. unfold Path.join. simpl. rewrite Ha, Hb, Hc. simpl.
  destruct b; [discriminate Hb | reflexivity].
Qed.

Lemma joinWith_snoc2 (l : list string) (b c : string) :
  l <> [] ->
  joinWith "/" (l ++ [b; c]) = (joinWith "/" l ++ "/" ++ b ++ "/" ++ c)%string.
Proof.
  intro Hne. change (l ++ [b; c]) with (l ++ [b] ++ [c]).
  rewrite app_assoc, joinWith_snoc, joinWith_snoc.
  - rewrite !string_app_assoc. reflexivity.
  - exact Hne.
  - intro E. apply app_eq_nil in E. destruct E as [_ E]. discriminate E.
Qed.

Lemma join_layer_slice (l : list string) (inSlice : string) :
  l <> [] ->
  Forall (fun n => ordinaryName n = true /\ hasChar Path.sep n = false) l ->
  plainSegment inSlice = true ->
  Path.join [joinWith "/" l; inSlice; "@x"] = joinWith "/" (l ++ [inSlice; "@x"]).
Proof.
  intros Hne Hgood Hin. destruct (plainSegment_inv _ Hin) as [Ho Hs].
  destruct (ordinaryName_inv _ Ho) as [He _].
  assert (HJ : isEmpty (joinWith "/" l) = false).
  { destruct l as [|a r]; [contradiction|].
    inversion Hgood as [|? ? [Ha _] _]; subst.
    destruct (joinWith_String a r (proj1 (ordinaryName_inv a Ha))) as [x [s E]].
    rewrite E. reflexivity. }
  assert (Hgood' : Forall (fun n => ordinaryName n = true /\ hasChar Path.sep n = false)
                     (l ++ [inSlice; "@x"])).
  { apply Forall_app. split; [exact Hgood|].
    constructor; [split; assumption|].
    constructor; [split; reflexivity | constructor]. }
  rewrite (join_three (joinWith "/" l) inSlice "@x" HJ He eq_refl).
  rewrite <- (joinWith_snoc2 l inSlice "@x" Hne).
  apply normalize_ordinary_list; [|exact Hgood'].
  intro E. apply app_eq_nil in E. destruct E as [_ E]. discriminate E.
Qed.

(** X16. For a layer path made of a non-empty list of ordinary segments
    without separator joined by [/] (a normalized relative path), names
    [inSlice], [inSlice'] and [forSlice] that are ordinary and hold no
    separator, and an extension [ext] that holds neither a dot nor a
    separator, [isCrossImportPublicApi] is exact: asked about the slice
    [inSlice'] and the target [forSlice'], it accepts the file
    [layer/inSlice/@x/forSlice.ext] if and only if [inSlice' = inSlice] and
    [forSlice' = forSlice]. *)
Theorem isCrossImportPublicApi_exact (layerSegments : list string)
    (inSlice forSlice ext inSlice' forSlice' : string) :
  layerSegments <> [] ->
  forallb plainSegment layerSegments = true ->
  plainSegment inSlice = true ->
  plainSegment inSlice' = true ->
  plainSegment forSlice = true ->
  hasChar Path.dot ext = false ->
  hasChar Path.sep ext = false ->
  isCrossImportPublicApi (mkFile (crossImportPath layerSegments inSlice forSlice ext))
    inSlice' forSlice' (joinWith "/" layerSegments)
  = String.eqb forSlice forSlice' && String.eqb inSlice inSlice'.
Proof.
  intros Hne Hl Hin Hin' Hfor Hext Hexts.
  pose proof (plainSegments_good _ Hl) as Hgood.
  destruct (plainSegment_inv _ Hin) as [Hoi Hsi].
  destruct (plainSegment_inv _ Hin') as [Hoi' Hsi'].
  destruct (plainSegment_inv _ Hfor) as [Hof Hsf].
  assert (Hgood2 : Forall (fun n => ordinaryName n = true /\ hasChar Path.sep n = false)
                     (layerSegments ++ [inSlice; "@x"])).
  { apply Forall_app. split; [exact Hgood|].
    constructor; [split; assumption|].
    constructor; [split; reflexivity | constructor]. }
  assert (Hbase : isEmpty (forSlice ++ "." ++ ext) = false
                  /\ hasChar Path.sep (forSlice ++ "." ++ ext) = false).
  { split.
    - destruct forSlice; reflexivity.
    - rewrite hasChar_app, Hsf. simpl. exact Hexts. }
  assert (Hpath : crossImportPath layerSegments inSlice forSlice ext
                  = joinWith "/"
                      ((layerSegments ++ [inSlice; "@x"])
                       ++ [(forSlice ++ "." ++ ext)%string])).
  { unfold crossImportPath. rewrite <- app_assoc. reflexivity. }
  unfold isCrossImportPublicApi. cbn [file_path]. rewrite Hpath.
  rewrite (parse_joined _ _
             (fun E0 => app_cons_not_nil _ _ _ (eq_sym E0))
             Hgood2 (proj1 Hbase) (proj2 Hbase)).
  cbn [Path.name Path.dir].
  rewrite (nameOf_with_extension _ _ Hof Hext).
  rewrite (join_layer_slice _ _ Hne Hgood Hin').
  f_equal.
  destruct (String.eqb inSlice inSlice') eqn:E.
  - apply String.eqb_eq in E. subst inSlice'. apply String.eqb_refl.
  - apply String.eqb_neq. intro Ej.
    apply joinWith_inj in Ej.
    + apply app_inv_head in Ej. inversion Ej. subst inSlice'.
      rewrite String.eqb_refl in E. discriminate E.
    + intro E0. exact (app_cons_not_nil _ _ _ (eq_sym E0)).
    + intro E0. exact (app_cons_not_nil _ _ _ (eq_sym E0)).
    + exact (good_no_sep _ Hgood2).
    + apply Forall_app. split; [exact (good_no_sep _ Hgood)|].
      constructor; [exact Hsi'|]. constructor; [reflexivity | constructor].
Qed.

(** The theorem at the example of the documentation comment with the
    leading [./] left out. *)
Lemma isCrossImportPublicApi_exact_witness :
  crossImportPath ["src"; "entities"] "user" "product" "ts"
    = "src/entities/user/@x/product.ts"
  /\ isCrossImportPublicApi (mkFile "src/entities/user/@x/product.ts")
       "user" "product" "src/entities" = true.
Proof.
  split; [reflexivity|].
  exact (isCrossImportPublicApi_exact ["src"; "entities"] "user" "product" "ts"
           "user" "product"
           (fun E => nil_cons (eq_sym E))
           eq_refl eq_refl eq_refl eq_refl eq_refl eq_refl).
Defined.

(** ** Layers and nested slices of well-formed trees *)

Lemma wellNamed_key_place (slicedLayer : Folder) (extras : list string)
    (p q : list nat) (k : string) (f g : Folder) :
  wellNamed slicedLayer = true ->
  In (p, (k, f)) (sliceTrace slicedLayer extras) ->
  In (q, (k, g)) (sliceTrace slicedLayer extras) ->
  q = p.
Proof.
  intros Hw Hp Hq.
  destruct (sliceTrace_sound _ _ _ _ _ Hp) as [Hatp _].
  destruct (sliceTrace_sound _ _ _ _ _ Hq) as [Hatq _].
  pose proof (sliceTrace_keys _ _ _ _ _ Hp (wellNamed_ordinary_along _ _ _ Hw Hatp))
    as Ep.
  pose proof (sliceTrace_keys _ _ _ _ _ Hq (wellNamed_ordinary_along _ _ _ Hw Hatq))
    as Eq.
  assert (Hnp : p <> []).
  { intro E. subst p. exact (overFolders_not_nil _ _ _ _ Hp). }
  assert (Hnq : q <> []).
  { intro E. subst q. exact (overFolders_not_nil _ _ _ _ Hq). }
  apply (namesAt_inj q slicedLayer p g f Hw Hatq Hatp).
  apply joinWith_inj.
  - exact (namesAt_not_nil _ _ _ Hnq Hatq).
  - exact (namesAt_not_nil _ _ _ Hnp Hatp).
  - apply namesAt_no_sep.
  - apply namesAt_no_sep.
  - rewrite <- Ep, <- Eq. reflexivity.
Qed.

(** C2. In a sliced layer whose tree is well formed, the folders among the
    children of every folder having ordinary base names that differ from
    one another, a folder found two levels below the layer that satisfies
    [isSlice], under a direct child folder that does not, is reported by
    [getSlices] under the two base names joined by the separator,
    [parent/child]. *)
Theorem nested_slices_reported (slicedLayer : Folder) (extras : list string) :
  wellNamed slicedLayer = true -> reportsNestedSlices slicedLayer extras.
Proof.
  intros Hw _ i parent j child Hp Hps Hc Hcs.
  destruct (getSlices_nested_slice slicedLayer extras i j parent child Hp Hps Hc Hcs)
    as [Hin [_ [Hget Hord]]].
  assert (Hat : folderAt slicedLayer [i; j] = Some child).
  { simpl. rewrite Hp. simpl. rewrite Hc. reflexivity. }
  pose proof (wellNamed_ordinary_along _ _ _ Hw Hat) as Hnames.
  simpl in Hnames. rewrite Hp in Hnames. simpl in Hnames. rewrite Hc in Hnames.
  simpl in Hnames. apply andb_true_iff in Hnames. destruct Hnames as [Hop Hoc].
  rewrite andb_true_r in Hoc.
  destruct (Hord Hop Hoc) as [Ekey Hproto].
  rewrite <- Ekey. apply Hget; [exact Hproto|].
  intros pos f Hf. exact (wellNamed_key_place _ _ _ _ _ _ _ Hw Hin Hf).
Qed.

(** The theorem at the nested slice of the example layer. *)
Lemma nested_slices_reported_witness :
  wellNamed featuresLayer = true
  /\ isSliced (inl featuresLayer) = true
  /\ get "cart/item" (getSlices featuresLayer [])
     = Some (mkFolder "src/features/cart/item" [file "src/features/cart/item/ui.ts"]).
Proof.
  split; [reflexivity|]. split; [reflexivity|].
  exact (nested_slices_reported featuresLayer [] eq_refl eq_refl 0
           (mkFolder "src/features/cart"
              [folder "src/features/cart/item" [file "src/features/cart/item/ui.ts"]])
           0
           (mkFolder "src/features/cart/item" [file "src/features/cart/item/ui.ts"])
           eq_refl eq_refl eq_refl eq_refl).
Defined.


